(** * Daily-Work: the daily-record engine of [App.tsx]

    A shallow embedding of the record derivation and state-update logic of the
    React component [App] (types.ts, constants.ts, App.tsx), and the proofs of
    the properties stated about it.

    Modelling conventions.
    - JavaScript numbers that hold points and totals are integers ([Z]); the
      quotient [progressPerc] and the mean of [stats] are exact rationals
      ([Q]), i.e. IEEE rounding is idealised away; [getReportComment64] is
      the same computation on binary64 numbers, and agrees with the exact
      one on all totals up to 300 ([binary64_agrees]).
    - Objects that the code mutates in place (task instances and the prayers
      object) live in a store and are referred to by location, so that every
      alias of an object sees a mutation.  Arrays and record objects are never
      mutated through an alias (the handlers copy them first), so they are
      values.
    - The React component is a state machine: each handler runs against the
      values of the last render ([state], [selectedDate], [currentRecord]);
      after it the component re-renders ([useMemo]) and runs its effects. *)

From Stdlib Require Import ZArith QArith Qround Lia Lqa.
From Stdlib Require PrimFloat Uint63.
From stdpp Require Import base option list gmap strings sorting.

Local Open Scope Z_scope.

(** ** types.ts *)

Record TaskTemplate := mkTemplate {
  id : string;
  name : string;
  points : Z;
}.

(** [interface TaskInstance extends TaskTemplate { completed: boolean }] *)
Record TaskInstance := mkTask {
  template :> TaskTemplate;
  completed : bool;
}.

Record Prayers := mkPrayers {
  fajr : bool;
  dhuhr : bool;
  asr : bool;
  maghrib : bool;
  isha : bool;
}.

(** A reference to an object of the store. *)
Definition loc := nat.

Record DailyRecord := mkRecord {
  date : string;
  tasks : list loc;                (* TaskInstance[]: references to task objects *)
  totalPointsEarned : Z;
  maxPointsPossible : Z;
  customQuote : option string;     (* customQuote?: string *)
  reportComment : option string;   (* reportComment?: string *)
  prayers : option loc;            (* prayers?: { fajr, ... } *)
}.

Module UserProfile.
Record t := mk {
  name : string;
  avatar : string;
  totalPoints : Z;
  streak : Z;
}.
End UserProfile.

Record AppState := mkState {
  profile : UserProfile.t;
  templates : list TaskTemplate;
  records : gmap string DailyRecord;   (* keyed by YYYY-MM-DD *)
  darkMode : bool;
}.

(** ** constants.ts *)

Definition DEFAULT_TEMPLATES : list TaskTemplate :=
  [ mkTemplate "1" "Morning Meditation" 10;
    mkTemplate "2" "Deep Work (2 Hours)" 20;
    mkTemplate "3" "Physical Exercise" 15;
    mkTemplate "4" "Read 10 Pages" 10;
    mkTemplate "5" "Healthy Meal Prep" 15;
    mkTemplate "6" "Evening Review" 5 ].

Definition INITIAL_PROFILE : UserProfile.t :=
  UserProfile.mk "Alex Rivera" "https://picsum.photos/id/64/200/200" 0 5.

(** ** The object store *)

Record Heap := mkHeap {
  taskObjs : list TaskInstance;
  prayerObjs : list Prayers;
}.

Definition emptyHeap : Heap := mkHeap [] [].

(** ** JavaScript helpers *)

(** [x || d] on numbers: [0] is the falsy number. *)
Definition orZ (x d : Z) : Z := if Z.eqb x 0 then d else x.

(** [!s] on an optional string: [undefined] and the empty string are falsy. *)
Definition falsy (s : option string) : bool :=
  match s with
  | None => true
  | Some s => bool_decide (s = "")
  end.

Definition Qltb (x y : Q) : bool :=
  match Qcompare x y with Lt => true | _ => false end.

(** [Math.round]: the nearest integer, halves towards plus infinity. *)
Definition Math_round (x : Q) : Z := Qfloor (x + (1 # 2))%Q.

(** ** App.tsx: report comment *)

Definition EMPTY_CANVAS : string :=
  "The canvas is empty, but the potential is infinite. Let's make a mark tomorrow. 🌙".
Definition SEED_SOWER : string :=
  "Seed sower. Every great journey begins with these first small, intentional steps. 🌱".
Definition MOMENTUM_BUILDER : string :=
  "Momentum builder. You're carving a path through the noise. Keep going. 🌊".
Definition PEAK_PERFORMER : string :=
  "Peak performer! You are breathing the rare air of high productivity. 🚀".
Definition ZENITH_MASTER : string :=
  "Zenith Master! Today, you achieved absolute alignment. You are unstoppable. 💎".

Definition getReportComment (progress : Q) : string :=
  if Qeq_bool progress 0 then EMPTY_CANVAS
  else if Qltb progress 30 then SEED_SOWER
  else if Qltb progress 60 then MOMENTUM_BUILDER
  else if Qltb progress 100 then PEAK_PERFORMER
  else ZENITH_MASTER.

(** ** App.tsx: the component

    [pending] holds the closures of the [fetchQuote] calls that await the
    inspiration provider: each one captured the [selectedDate] and the
    [currentRecord] of the render whose effect started it. *)

Record Pending := mkPending {
  fetchDate : string;
  fetchRecord : DailyRecord;
}.

Record World := mkWorld {
  state : AppState;
  selectedDate : string;
  heap : Heap;
  currentRecord : DailyRecord;   (* the value memoised by useMemo at the last render *)
  effectDeps : option (string * string * option string);
                                 (* dependencies of the quote effect when it last ran *)
  pending : list Pending;
}.

Definition withHeap (h : Heap) (w : World) : World :=
  mkWorld (state w) (selectedDate w) h (currentRecord w) (effectDeps w) (pending w).

Definition withRecords (f : gmap string DailyRecord → gmap string DailyRecord)
    (s : AppState) : AppState :=
  mkState (profile s) (templates s) (f (records s)) (darkMode s).

Definition withQuote (q : option string) (r : DailyRecord) : DailyRecord :=
  mkRecord (date r) (tasks r) (totalPointsEarned r) (maxPointsPossible r)
           q (reportComment r) (prayers r).

Definition withTasks (ts : list loc) (r : DailyRecord) : DailyRecord :=
  mkRecord (date r) ts (totalPointsEarned r) (maxPointsPossible r)
           (customQuote r) (reportComment r) (prayers r).

Definition withPrayers (p : option loc) (r : DailyRecord) : DailyRecord :=
  mkRecord (date r) (tasks r) (totalPointsEarned r) (maxPointsPossible r)
           (customQuote r) (reportComment r) p.

(** Reading an array of task references. *)
Definition tasksOf (h : Heap) (ls : list loc) : list TaskInstance :=
  omap (λ l, taskObjs h !! l) ls.

Definition noPrayers : Prayers := mkPrayers false false false false false.

(** The body of [useMemo(() => ..., [selectedDate, state.records, state.templates])].
    For a date without a stored record it builds fresh objects: one task
    instance per template and a prayers object. *)
Definition computeCurrentRecord (s : AppState) (selected : string) (h : Heap)
    : DailyRecord * Heap :=
  match records s !! selected with
  | Some record => (record, h)
  | None =>
      let fresh := (λ t, mkTask t false) <$> templates s in
      ( {| date := selected;
           tasks := seq (length (taskObjs h)) (length fresh);
           totalPointsEarned := 0;
           maxPointsPossible := foldl (λ acc t, acc + points t) 0 (templates s);
           customQuote := None;
           reportComment := None;
           prayers := Some (length (prayerObjs h)) |},
        mkHeap (taskObjs h ++ fresh) (prayerObjs h ++ [noPrayers]) )
  end.

Definition useMemo (w : World) : World :=
  let '(r, h) := computeCurrentRecord (state w) (selectedDate w) (heap w) in
  mkWorld (state w) (selectedDate w) h r (effectDeps w) (pending w).

(** [useEffect(() => { if (!currentRecord.customQuote) fetchQuote() },
               [selectedDate, state.profile.name, currentRecord.customQuote])] *)
Definition quoteEffect (w : World) : World :=
  let deps := (selectedDate w, UserProfile.name (profile (state w)),
               customQuote (currentRecord w)) in
  if decide (effectDeps w = Some deps) then w
  else
    mkWorld (state w) (selectedDate w) (heap w) (currentRecord w) (Some deps)
      (if falsy (customQuote (currentRecord w))
       then pending w ++ [mkPending (selectedDate w) (currentRecord w)]
       else pending w).

(** [setState(prev => f prev)] followed by the re-render it causes.
    [newRecords] tells whether [f] installs a new [records] object, which is
    what makes [useMemo] recompute [currentRecord] ([templates] never
    changes and [selectedDate] has its own setter). *)
Definition setState (f : AppState → AppState) (newRecords : bool) (w : World) : World :=
  let w1 := mkWorld (f (state w)) (selectedDate w) (heap w) (currentRecord w)
                    (effectDeps w) (pending w) in
  quoteEffect (if newRecords then useMemo w1 else w1).

(** [setSelectedDate(d)]: React bails out when the value is unchanged.
    Otherwise the component renders again and runs its effects.  This is the
    render of a calendar date [d] (see [isoDate]); with another text, such as
    the empty value of a cleared date input, the home view throws while it
    renders (line 354) and no effect runs. *)
Definition setSelectedDate (d : string) (w : World) : World :=
  if decide (d = selectedDate w) then w
  else quoteEffect (useMemo (mkWorld (state w) d (heap w) (currentRecord w)
                                     (effectDeps w) (pending w))).

(** The first render: [state] comes from localStorage or from the defaults,
    [selectedDate] is today. *)
Definition mount (s : AppState) (h : Heap) (today : string) : World :=
  quoteEffect (useMemo (mkWorld s today h (mkRecord today [] 0 0 None None None) None [])).

Definition initialState (dark : bool) : AppState :=
  mkState INITIAL_PROFILE DEFAULT_TEMPLATES ∅ dark.

(** [(record.totalPointsEarned / (record.maxPointsPossible || 1)) * 100] *)
Definition progressPerc (earned maxp : Z) : Q :=
  (inject_Z earned / inject_Z (orZ maxp 1) * 100)%Q.

(** Lines 119-122 of [updateRecord]: the fields it rewrites on [record]. *)
Definition recompute (h : Heap) (record : DailyRecord) : DailyRecord :=
  let ts := tasksOf h (tasks record) in
  let earned :=
    foldl (λ acc (t : TaskInstance), acc + (if completed t then points t else 0)) 0 ts in
  let maxp := foldl (λ acc (t : TaskInstance), acc + points t) 0 ts in
  mkRecord (date record) (tasks record) earned maxp (customQuote record)
           (Some (getReportComment (progressPerc earned maxp))) (prayers record).

Definition updateRecord (record : DailyRecord) (w : World) : World :=
  let record := recompute (heap w) record in
  setState (withRecords (λ prev, <[selectedDate w := record]> prev)) true w.

Definition flipCompleted (t : TaskInstance) : TaskInstance :=
  mkTask (template t) (negb (completed t)).

Definition hasId (h : Heap) (taskId : string) (l : loc) : Prop :=
  (λ t : TaskInstance, id t) <$> taskObjs h !! l = Some taskId.

Global Instance hasId_dec h taskId l : Decision (hasId h taskId l).
Proof. unfold hasId. apply _. Defined.

Definition toggleTask (taskId : string) (w : World) : World :=
  let record := currentRecord w in                       (* { ...currentRecord } *)
  match list_find (hasId (heap w) taskId) (tasks record) with
  | None => w                                            (* taskIndex === -1 *)
  | Some (taskIndex, l) =>
      let h := mkHeap (alter flipCompleted l (taskObjs (heap w))) (prayerObjs (heap w)) in
      updateRecord record (withHeap h w)
  end.

Inductive PrayerName := Fajr | Dhuhr | Asr | Maghrib | Isha.

Definition flipPrayer (p : PrayerName) (x : Prayers) : Prayers :=
  match p with
  | Fajr => mkPrayers (negb (fajr x)) (dhuhr x) (asr x) (maghrib x) (isha x)
  | Dhuhr => mkPrayers (fajr x) (negb (dhuhr x)) (asr x) (maghrib x) (isha x)
  | Asr => mkPrayers (fajr x) (dhuhr x) (negb (asr x)) (maghrib x) (isha x)
  | Maghrib => mkPrayers (fajr x) (dhuhr x) (asr x) (negb (maghrib x)) (isha x)
  | Isha => mkPrayers (fajr x) (dhuhr x) (asr x) (maghrib x) (negb (isha x))
  end.

Definition togglePrayer (prayer : PrayerName) (w : World) : World :=
  let record := currentRecord w in
  let '(pl, objs) :=
    match prayers record with
    | Some pl => (pl, prayerObjs (heap w))
    | None => (length (prayerObjs (heap w)), prayerObjs (heap w) ++ [noPrayers])
    end in
  let h := mkHeap (taskObjs (heap w)) (alter (flipPrayer prayer) pl objs) in
  updateRecord (withPrayers (Some pl) record) (withHeap h w).

(** [Partial<TaskInstance>] *)
Record TaskUpdates := mkUpdates {
  newId : option string;
  newName : option string;
  newPoints : option Z;
  newCompleted : option bool;
}.

(** [{ ...t, ...updates }] *)
Definition merge (t : TaskInstance) (u : TaskUpdates) : TaskInstance :=
  mkTask (mkTemplate (default (id t) (newId u)) (default (name t) (newName u))
                     (default (points t) (newPoints u)))
         (default (completed t) (newCompleted u)).

(** [tasks.map(t => t.id === taskId ? { ...t, ...updates } : t)]: a matching
    task is replaced by a new object, the others are shared. *)
Fixpoint mapTasks (taskId : string) (u : TaskUpdates) (objs : list TaskInstance)
    (ls : list loc) : list loc * list TaskInstance :=
  match ls with
  | [] => ([], objs)
  | l :: ls =>
      match (objs !! l : option TaskInstance) with
      | Some t =>
          if decide (id t = taskId)
          then let '(ls', objs') := mapTasks taskId u (objs ++ [merge t u]) ls in
               (length objs :: ls', objs')
          else let '(ls', objs') := mapTasks taskId u objs ls in (l :: ls', objs')
      | None => let '(ls', objs') := mapTasks taskId u objs ls in (l :: ls', objs')
      end
  end.

Definition updateTaskInstance (taskId : string) (updates : TaskUpdates) (w : World) : World :=
  let record := currentRecord w in
  let '(ls, objs) := mapTasks taskId updates (taskObjs (heap w)) (tasks record) in
  updateRecord (withTasks ls record) (withHeap (mkHeap objs (prayerObjs (heap w))) w).

(** [tasks.filter(t => t.id !== taskId)] *)
Definition deleteTaskInstance (taskId : string) (w : World) : World :=
  let record := currentRecord w in
  let ls := filter (λ l, ¬ hasId (heap w) taskId l) (tasks record) in
  updateRecord (withTasks ls record) w.

(** The "Define Goal" button.  [random36] is the value of
    [Math.random().toString(36)], the only input of the new id. *)
Definition NEW_OBJECTIVE : string := "New Objective 💎".

Definition defineGoal (random36 : string) (w : World) : World :=
  let newTask := mkTask (mkTemplate (String.substring 2 9 random36) NEW_OBJECTIVE 10) false in
  let l := length (taskObjs (heap w)) in
  let h := mkHeap (taskObjs (heap w) ++ [newTask]) (prayerObjs (heap w)) in
  updateRecord (withTasks (tasks (currentRecord w) ++ [l]) (currentRecord w)) (withHeap h w).

(** The quote textarea's [onChange]. *)
Definition editQuote (text : string) (w : World) : World :=
  setState (withRecords (λ prev,
              <[selectedDate w := withQuote (Some text) (currentRecord w)]> prev)) true w.

(** [confirmed] is the answer of [window.confirm]. *)
Definition clearAllRecords (confirmed : bool) (w : World) : World :=
  if confirmed then
    setState (λ prev,
      mkState (UserProfile.mk (UserProfile.name (profile prev))
                              (UserProfile.avatar (profile prev)) 0 0)
              (templates prev) ∅ (darkMode prev)) true w
  else w.

Definition toggleDarkMode (w : World) : World :=
  setState (λ prev, mkState (profile prev) (templates prev) (records prev)
                            (negb (darkMode prev))) false w.

Definition setProfileName (n : string) (w : World) : World :=
  setState (λ prev,
    mkState (UserProfile.mk n (UserProfile.avatar (profile prev))
                            (UserProfile.totalPoints (profile prev))
                            (UserProfile.streak (profile prev)))
            (templates prev) (records prev) (darkMode prev)) false w.

(** The continuation of the [i]-th pending [fetchQuote] once
    [getDailyInspiration] has answered [q]: it writes the record captured by
    its closure, under the date captured by its closure. *)
Definition quoteArrives (i : nat) (q : string) (w : World) : World :=
  match pending w !! i with
  | None => w
  | Some p =>
      let w1 := mkWorld (state w) (selectedDate w) (heap w) (currentRecord w)
                        (effectDeps w) (delete i (pending w)) in
      setState (withRecords (λ prev,
                  <[fetchDate p := withQuote (Some q) (fetchRecord p)]> prev)) true w1
  end.

(** ** Events *)

Inductive Event :=
  | SetSelectedDate (d : string)
  | ToggleTask (taskId : string)
  | TogglePrayer (prayer : PrayerName)
  | UpdateTaskInstance (taskId : string) (updates : TaskUpdates)
  | DeleteTaskInstance (taskId : string)
  | DefineGoal (random36 : string)
  | EditQuote (text : string)
  | ClearAllRecords (confirmed : bool)
  | ToggleDarkMode
  | SetProfileName (n : string)
  | QuoteArrives (i : nat) (q : string).

Definition step (w : World) (e : Event) : World :=
  match e with
  | SetSelectedDate d => setSelectedDate d w
  | ToggleTask taskId => toggleTask taskId w
  | TogglePrayer prayer => togglePrayer prayer w
  | UpdateTaskInstance taskId updates => updateTaskInstance taskId updates w
  | DeleteTaskInstance taskId => deleteTaskInstance taskId w
  | DefineGoal random36 => defineGoal random36 w
  | EditQuote text => editQuote text w
  | ClearAllRecords confirmed => clearAllRecords confirmed w
  | ToggleDarkMode => toggleDarkMode w
  | SetProfileName n => setProfileName n w
  | QuoteArrives i q => quoteArrives i q w
  end.

Definition run (w : World) (es : list Event) : World := foldl step w es.

(** ** App.tsx: [stats] *)

Definition dateLe (a b : DailyRecord) : Prop := String.leb (date a) (date b) = true.

Global Instance dateLe_dec a b : Decision (dateLe a b).
Proof. unfold dateLe. apply _. Defined.

(** [Object.values(state.records).sort((a, b) => a.date.localeCompare(b.date))];
    the keys are zero-padded ISO dates, which [localeCompare] orders as
    plain text. *)
Definition allRecords (s : AppState) : list DailyRecord :=
  merge_sort dateLe ((map_to_list (records s)).*2).

Definition avgScore (s : AppState) : Z :=
  let all := allRecords s in
  if decide (length all = 0%nat) then 0
  else
    let sum := foldl (λ acc r, acc + orZ (totalPointsEarned r) 0) 0 all in
    Math_round (inject_Z sum / inject_Z (Z.of_nat (length all))).

(** ** Binary64 arithmetic *)

(** The same two computations on binary64 numbers, as the engine runs them
    ([z] is a non-negative integer below 2^53). *)
Definition toFloat (z : Z) : PrimFloat.float := PrimFloat.of_uint63 (Uint63.of_Z z).

Definition progressPerc64 (earned maxp : Z) : PrimFloat.float :=
  PrimFloat.mul (PrimFloat.div (toFloat earned) (toFloat (orZ maxp 1))) (toFloat 100).

Definition getReportComment64 (progress : PrimFloat.float) : string :=
  if PrimFloat.eqb progress (toFloat 0) then EMPTY_CANVAS
  else if PrimFloat.ltb progress (toFloat 30) then SEED_SOWER
  else if PrimFloat.ltb progress (toFloat 60) then MOMENTUM_BUILDER
  else if PrimFloat.ltb progress (toFloat 100) then PEAK_PERFORMER
  else ZENITH_MASTER.

(** The binary64 comment and the exact one coincide for all
    [0 <= earned <= maxp <= n]. *)
Definition agreeUpTo (n : nat) : bool :=
  forallb (λ m : nat,
    forallb (λ e : nat,
      String.eqb (getReportComment64 (progressPerc64 (Z.of_nat e) (Z.of_nat m)))
                 (getReportComment (progressPerc (Z.of_nat e) (Z.of_nat m))))
      (seq 0 (S m)))
    (seq 0 (S n)).

(** ** App.tsx: the rest of [stats] *)

(** The value of [Math.max]: minus infinity when it gets no argument. *)
Inductive MaxValue :=
  | MinusInfinity
  | Num (z : Z).

Definition Math_max (l : list Z) : MaxValue :=
  foldr (λ x acc, match acc with
                  | MinusInfinity => Num x
                  | Num y => Num (Z.max x y)
                  end) MinusInfinity l.

Definition highestScore (s : AppState) : MaxValue :=
  let all := allRecords s in
  if decide (length all = 0%nat) then Num 0
  else Math_max ((λ r, orZ (totalPointsEarned r) 0) <$> all).

Import Ascii.AsciiSyntax.

(** [s.split(sep)] for a separator of one character. *)
Fixpoint String_split (sep : Ascii.ascii) (s : string) : list string :=
  match s with
  | EmptyString => [EmptyString]
  | String c s' =>
      if Ascii.eqb c sep then EmptyString :: String_split sep s'
      else match String_split sep s' with
           | [] => [String c EmptyString]
           | piece :: pieces => String c piece :: pieces
           end
  end.

Module ChartPoint.
Record t := mk {
  date : string;
  points : Z;
}.
End ChartPoint.

Local Open Scope char_scope.
Definition DASH : Ascii.ascii := "-".
Local Close Scope char_scope.

(** [r.date.split('-').slice(1).join('/')] *)
Definition chartLabel (d : string) : string :=
  String.concat "/" (drop 1 (String_split DASH d)).

(** [allRecords.slice(-14).map(r => ({ date: ..., points: r.totalPointsEarned }))] *)
Definition chartData (s : AppState) : list ChartPoint.t :=
  let all := allRecords s in
  (λ r, ChartPoint.mk (chartLabel (date r)) (totalPointsEarned r))
    <$> drop (length all - 14) all.

(** ** App.tsx: what the views compute *)

(** [a || b] on an optional string. *)
Definition orString (a : option string) (b : string) : string :=
  match a with
  | Some a => if bool_decide (a = "") then b else a
  | None => b
  end.

Definition progress (w : World) : Q :=
  progressPerc (totalPointsEarned (currentRecord w)) (maxPointsPossible (currentRecord w)).

Definition isCompleted (w : World) : bool :=
  Qeq_bool (progress w) 100 && bool_decide (0 < length (tasks (currentRecord w)))%nat.

(** The pulse report of the inspiration card. *)
Definition pulseReport (w : World) : string :=
  orString (reportComment (currentRecord w)) (getReportComment (progress w)).

(** [record.prayers[prayer]] and [currentRecord.prayers?.[p]]: a record
    without a prayers object shows every prayer as open. *)
Definition getPrayer (p : PrayerName) (x : Prayers) : bool :=
  match p with
  | Fajr => fajr x
  | Dhuhr => dhuhr x
  | Asr => asr x
  | Maghrib => maghrib x
  | Isha => isha x
  end.

Definition prayerShown (h : Heap) (r : DailyRecord) (p : PrayerName) : bool :=
  match prayers r ≫= (λ l, prayerObjs h !! l) with
  | Some x => getPrayer p x
  | None => false
  end.

(** The badge of a record in the archive. *)
Definition trophy (r : DailyRecord) : bool :=
  bool_decide (maxPointsPossible r ≤ totalPointsEarned r).

(** Two cards of the analytics view, both over integers.  [Object.values]
    enumerates the records in insertion order; neither result depends on the
    order. *)
Definition totalEnergyHarvest (s : AppState) : Z :=
  foldl (λ acc r, acc + totalPointsEarned r) 0 ((map_to_list (records s)).*2).

Definition isMilestone (r : DailyRecord) : bool :=
  bool_decide (maxPointsPossible r ≤ totalPointsEarned r)
  && bool_decide (0 < maxPointsPossible r).

Definition milestoneDays (s : AppState) : nat :=
  length (filter (λ r, isMilestone r = true) ((map_to_list (records s)).*2)).

(** The profile picture once the file reader has produced [dataUrl]. *)
Definition avatarLoaded (dataUrl : string) (w : World) : World :=
  setState (λ prev,
    mkState (UserProfile.mk (UserProfile.name (profile prev)) dataUrl
                            (UserProfile.totalPoints (profile prev))
                            (UserProfile.streak (profile prev)))
            (templates prev) (records prev) (darkMode prev)) false w.

(** * Specification-side notions *)

(** ** Sums and totals *)

Definition sumZ (l : list Z) : Z := foldr Z.add 0 l.

(** The points of the tasks that are completed, and of all tasks. *)
Definition earnedPoints (ts : list TaskInstance) : Z :=
  sumZ ((λ t : TaskInstance, points t) <$> filter (λ t : TaskInstance, completed t = true) ts).

Definition possiblePoints (ts : list TaskInstance) : Z :=
  sumZ ((λ t : TaskInstance, points t) <$> ts).

(** The two sum invariants of a record, read through the store [h]. *)
Definition totalsAgree (h : Heap) (r : DailyRecord) : Prop :=
  totalPointsEarned r = earnedPoints (tasksOf h (tasks r)) ∧
  maxPointsPossible r = possiblePoints (tasksOf h (tasks r)).

(** The ids of the tasks of a record. *)
Definition taskIds (h : Heap) (r : DailyRecord) : list string :=
  (λ t : TaskInstance, id t) <$> tasksOf h (tasks r).

(** Every task reference of the record denotes an object of the store. *)
Definition wellFormed (h : Heap) (r : DailyRecord) : Prop :=
  Forall (λ l, is_Some (taskObjs h !! l)) (tasks r).

(** The derived fields of a record, and the records whose derived fields are
    the ones [updateRecord] computes from their tasks. *)
Definition derivedFields (r : DailyRecord) : Z * Z * option string :=
  (totalPointsEarned r, maxPointsPossible r, reportComment r).

Definition committed (h : Heap) (r : DailyRecord) : Prop :=
  derivedFields r = derivedFields (recompute h r).

(** The mutation operations that reach [updateRecord]: every one of them
    except a toggle whose id is absent. *)
Inductive commits (w : World) : Event → Prop :=
  | commits_toggle taskId :
      taskId ∈ taskIds (heap w) (currentRecord w) → commits w (ToggleTask taskId)
  | commits_prayer prayer : commits w (TogglePrayer prayer)
  | commits_update taskId updates : commits w (UpdateTaskInstance taskId updates)
  | commits_delete taskId : commits w (DeleteTaskInstance taskId)
  | commits_define random36 : commits w (DefineGoal random36).

(** ** The tiers of the report comment *)

Inductive Tier :=
  | EmptyCanvasTier
  | SeedSowerTier
  | MomentumBuilderTier
  | PeakPerformerTier
  | ZenithMasterTier.

Definition tierComment (t : Tier) : string :=
  match t with
  | EmptyCanvasTier => EMPTY_CANVAS
  | SeedSowerTier => SEED_SOWER
  | MomentumBuilderTier => MOMENTUM_BUILDER
  | PeakPerformerTier => PEAK_PERFORMER
  | ZenithMasterTier => ZENITH_MASTER
  end.

(** [progressPercent = 100 * totalPointsEarned / max(maxPointsPossible, 1)] *)
Definition progressPercent (earned maxp : Z) : Q :=
  (100 * inject_Z earned / inject_Z (Z.max maxp 1))%Q.

(** The table of the specification: 0, (0, 30), [30, 60), [60, 100), 100. *)
Definition inTier (p : Q) (t : Tier) : Prop :=
  match t with
  | EmptyCanvasTier => p == 0
  | SeedSowerTier => 0 < p ∧ p < 30
  | MomentumBuilderTier => 30 <= p ∧ p < 60
  | PeakPerformerTier => 60 <= p ∧ p < 100
  | ZenithMasterTier => p == 100
  end%Q.

(** ** Viewing a date *)

(** The record synthesised from the template catalog for date [d]. *)
Definition isTemplateRecord (h : Heap) (s : AppState) (d : string) (r : DailyRecord) : Prop :=
  date r = d ∧
  tasksOf h (tasks r) = (λ t, mkTask t false) <$> templates s ∧
  totalPointsEarned r = 0 ∧
  maxPointsPossible r = sumZ (points <$> templates s) ∧
  customQuote r = None ∧
  reportComment r = None ∧
  (prayers r ≫= λ l, prayerObjs h !! l) = Some noPrayers.

(** The dates the component can be rendered with: [YYYY-MM-DD] for a day of
    the calendar, as the date input, [toISOString] and the keys of the stored
    records give them.  With any other text, such as the empty value of a
    cleared date input, [new Date(selectedDate)] is an invalid date and the
    home view throws while it renders (line 354), so that no effect runs. *)
Definition digitOf (c : Ascii.ascii) : option nat :=
  let n := Ascii.nat_of_ascii c in
  if bool_decide (48 ≤ n ≤ 57)%nat then Some (n - 48)%nat else None.

Definition leapYear (y : nat) : bool :=
  ((y `mod` 4 =? 0) && (negb (y `mod` 100 =? 0) || (y `mod` 400 =? 0)))%nat.

Definition daysIn (y m : nat) : nat :=
  match m with
  | 1 | 3 | 5 | 7 | 8 | 10 | 12 => 31
  | 4 | 6 | 9 | 11 => 30
  | 2 => if leapYear y then 29 else 28
  | _ => 0
  end%nat.

Definition isoDate (d : string) : bool :=
  match d with
  | String y1 (String y2 (String y3 (String y4 (String s1
      (String m1 (String m2 (String s2 (String d1 (String d2 EmptyString))))))))) =>
      match digitOf y1, digitOf y2, digitOf y3, digitOf y4,
            digitOf m1, digitOf m2, digitOf d1, digitOf d2 with
      | Some a, Some b, Some c, Some e, Some f, Some g, Some i, Some j =>
          let year := (1000 * a + 100 * b + 10 * c + e)%nat in
          let month := (10 * f + g)%nat in
          let day := (10 * i + j)%nat in
          Ascii.eqb s1 DASH && Ascii.eqb s2 DASH
          && (1 <=? month)%nat && (month <=? 12)%nat
          && (1 <=? day)%nat && (day <=? daysIn year month)%nat
      | _, _, _, _, _, _, _, _ => false
      end
  | _ => false
  end.

(** The quote effect has run on the last render (true of every world the
    component reaches, see [rendered_mount] and [rendered_step]). *)
Definition rendered (w : World) : Prop :=
  effectDeps w = Some (selectedDate w, UserProfile.name (profile (state w)),
                       customQuote (currentRecord w)).

(** The events that write the record of date [d]: a mutation or a quote edit
    while [d] is selected, and the arrival of a quote fetched for [d]. *)
Definition touches (d : string) (w : World) (e : Event) : Prop :=
  match e with
  | ToggleTask _ | TogglePrayer _ | UpdateTaskInstance _ _ | DeleteTaskInstance _
  | DefineGoal _ | EditQuote _ => selectedDate w = d
  | QuoteArrives i _ => fetchDate <$> pending w !! i = Some d
  | SetSelectedDate _ | ClearAllRecords _ | ToggleDarkMode | SetProfileName _ => False
  end.

Fixpoint untouched (d : string) (w : World) (es : list Event) : Prop :=
  match es with
  | [] => True
  | e :: es => ¬ touches d w e ∧ untouched d (step w e) es
  end.

(** ** Statistics and new goals *)

(** The arithmetic mean of [totalPointsEarned] over the records mapping. *)
Definition meanScore (m : gmap string DailyRecord) : Q :=
  (inject_Z (sumZ (totalPointsEarned <$> (map_to_list m).*2))
   / inject_Z (Z.of_nat (size m)))%Q.

(** The task instance that "Define Goal" creates from a random draw. *)
Definition newGoal (random36 : string) : TaskInstance :=
  mkTask (mkTemplate (String.substring 2 9 random36) NEW_OBJECTIVE 10) false.

(** ** The invariant of the component *)

(** The records mapping together with the record on display. *)
Definition shown (w : World) : gmap string DailyRecord :=
  <[selectedDate w := currentRecord w]> (records (state w)).

(** A mapping of records is sound in a store when every record denotes
    objects, has the two sums as its totals, and shares no task object with
    the record of another date. *)
Record Sound (h : Heap) (m : gmap string DailyRecord) : Prop := mkSound {
  sound_wf : ∀ d r, m !! d = Some r → wellFormed h r;
  sound_totals : ∀ d r, m !! d = Some r → totalsAgree h r;
  sound_sep : ∀ d d' r r' l,
    d ≠ d' → m !! d = Some r → m !! d' = Some r' → l ∈ tasks r → l ∉ tasks r';
}.

(** A stored record for the selected date is the record on display, and the
    mapping with the record on display is sound. *)
Definition Inv (w : World) : Prop :=
  (∀ r, records (state w) !! selectedDate w = Some r → currentRecord w = r) ∧
  Sound (heap w) (shown w).

(** The events of the user; the other one is the answer of the provider. *)
Definition userEvent (e : Event) : Prop :=
  match e with QuoteArrives _ _ => False | _ => True end.

(** ** Concrete worlds *)

Definition today : string := "2024-05-01".
Definition tomorrow : string := "2024-05-02".

(** The first render with the default state. *)
Definition freshWorld : World := mount (initialState false) emptyHeap today.

(** The same world after its first task has been toggled once. *)
Definition committedWorld : World := toggleTask "1" freshWorld.

(** Two days of history: 5 points on the first day, 10 on the second. *)
Definition twoDays : World :=
  run freshWorld [ToggleTask "6"; SetSelectedDate tomorrow; ToggleTask "1"].

(** The first render followed by one click on "Define Goal". *)
Definition oneGoal : World := defineGoal "0.k3j9x2m1pqz" freshWorld.

(** ** Notions for the further properties *)

Global Instance PrayerName_eq_dec : EqDecision PrayerName.
Proof. solve_decision. Defined.

(** What [updateTaskInstance] makes of one task. *)
Definition updated (taskId : string) (u : TaskUpdates) (t : TaskInstance) : TaskInstance :=
  if decide (id t = taskId) then merge t u else t.

(** The prayers reference of the record, if it has one, denotes an object. *)
Definition prayersValid (h : Heap) (r : DailyRecord) : Prop :=
  match prayers r with
  | Some l => is_Some (prayerObjs h !! l)
  | None => True
  end.

(** The points of the tasks with a given id. *)
Definition withId (taskId : string) (ts : list TaskInstance) : list TaskInstance :=
  filter (λ t : TaskInstance, id t = taskId) ts.

(** Every task that is still open is worth no points. *)
Definition allDone (ts : list TaskInstance) : Prop :=
  Forall (λ t : TaskInstance, completed t = true ∨ points t = 0) ts.

Global Instance allDone_dec ts : Decision (allDone ts).
Proof. unfold allDone. apply _. Defined.

(** The character [c] occurs in [s]. *)
Fixpoint occurs (c : Ascii.ascii) (s : string) : bool :=
  match s with
  | EmptyString => false
  | String a s' => Ascii.eqb a c || occurs c s'
  end.

(** The rest of the state of a world: everything but [state]. *)
Definition sameView (w w' : World) : Prop :=
  selectedDate w' = selectedDate w ∧ heap w' = heap w ∧
  currentRecord w' = currentRecord w ∧ pending w' = pending w.

(** The report comment of every record of the mapping is absent or the one
    [updateRecord] computes. *)
Definition Reported (h : Heap) (m : gmap string DailyRecord) : Prop :=
  ∀ d r, m !! d = Some r → reportComment r = None ∨ committed h r.

(** The tasks on display. *)
Definition shownTasks (w : World) : list TaskInstance :=
  tasksOf (heap w) (tasks (currentRecord w)).

(** The user events with which the component stays rendered: every date
    selected is a calendar date. *)
Definition calendarEvent (e : Event) : Prop :=
  match e with
  | QuoteArrives _ _ => False
  | SetSelectedDate d => isoDate d = true
  | _ => True
  end.

(** * Lemmas *)

(** ** Arithmetic *)

Lemma sumZ_cons x l : sumZ (x :: l) = x + sumZ l.
Proof. reflexivity. Qed.

Lemma sumZ_Permutation l1 l2 : l1 ≡ₚ l2 → sumZ l1 = sumZ l2.
Proof.
  induction 1 as [|x l1 l2 _ IH|x y l|l1 l2 l3 _ IH1 _ IH2]; rewrite ?sumZ_cons.
  - done.
  - by rewrite IH.
  - lia.
  - congruence.
Qed.

(** A [reduce] that adds [f x] per element is the sum of the [f x]. *)
Lemma foldl_add {A} (f : A → Z) (a : Z) (l : list A) :
  foldl (λ acc x, acc + f x) a l = a + sumZ (f <$> l).
Proof.
  revert a. induction l as [|x l IH]; intros a; [simpl; lia|].
  rewrite fmap_cons, sumZ_cons. simpl foldl. rewrite IH. lia.
Qed.

Lemma orZ_0 x : orZ x 0 = x.
Proof. unfold orZ. destruct (Z.eqb_spec x 0); congruence. Qed.

Lemma orZ_max m : 0 ≤ m → orZ m 1 = Z.max m 1.
Proof. intros Hm. unfold orZ. destruct (Z.eqb_spec m 0); lia. Qed.

Lemma Qltb_lt x y : Qltb x y = true ↔ (x < y)%Q.
Proof.
  unfold Qltb. rewrite Qlt_alt. destruct (x ?= y)%Q; split; congruence.
Qed.

Lemma Qltb_ge x y : Qltb x y = false ↔ (y <= x)%Q.
Proof.
  rewrite <- not_true_iff_false, Qltb_lt. split; [apply Qnot_lt_le | apply Qle_not_lt].
Qed.

(** [Math.round x] is the integer in [(x - 1/2, x + 1/2]]. *)
Lemma Math_round_nearest x :
  (x - (1 # 2) < inject_Z (Math_round x))%Q ∧ (inject_Z (Math_round x) <= x + (1 # 2))%Q.
Proof.
  unfold Math_round. split.
  - assert (H := Qlt_floor (x + (1 # 2))).
    rewrite inject_Z_plus in H. change (inject_Z 1) with 1%Q in H.
    revert H. generalize (inject_Z (Qfloor (x + (1 # 2)))). intros k H. lra.
  - apply Qfloor_le.
Qed.

(** ** Reading the store *)

Lemma tasksOf_app h ls1 ls2 : tasksOf h (ls1 ++ ls2) = tasksOf h ls1 ++ tasksOf h ls2.
Proof. apply omap_app. Qed.

(** Two stores that agree on the references of an array give the same tasks. *)
Lemma tasksOf_agree h h' ls :
  (∀ l, l ∈ ls → taskObjs h' !! l = taskObjs h !! l) →
  tasksOf h' ls = tasksOf h ls.
Proof.
  intros Hag. unfold tasksOf. apply list_omap_ext.
  induction ls as [|l ls IH]; constructor.
  - apply Hag. left.
  - apply IH. intros l' Hl'. apply Hag. by right.
Qed.

(** Allocation leaves the tasks of a well-formed array as they were. *)
Lemma tasksOf_app_objs objs new ps ps' ls :
  Forall (λ l, is_Some (objs !! l)) ls →
  tasksOf (mkHeap (objs ++ new) ps') ls = tasksOf (mkHeap objs ps) ls.
Proof.
  intros Hwf. apply tasksOf_agree. simpl. intros l Hl.
  destruct (proj1 (Forall_forall _ _) Hwf l Hl) as [t Ht].
  by rewrite Ht, (lookup_app_l_Some _ _ _ _ Ht).
Qed.

(** The objects allocated in a row are read back in order. *)
Lemma omap_lookup_seq {A} (objs new : list A) :
  omap (λ l, (objs ++ new) !! l) (seq (length objs) (length new)) = new.
Proof.
  revert objs. induction new as [|x new IH]; intros objs; [done|].
  simpl. rewrite list_lookup_middle by done. f_equal.
  specialize (IH (objs ++ [x])).
  rewrite length_app, <- app_assoc in IH. simpl in IH.
  by rewrite Nat.add_1_r in IH.
Qed.

Lemma wellFormed_valid h r l :
  wellFormed h r → l ∈ tasks r → (l < length (taskObjs h))%nat.
Proof.
  unfold wellFormed. rewrite Forall_forall. intros Hwf Hl.
  by apply lookup_lt_is_Some, Hwf.
Qed.

Lemma wellFormed_agree h h' r :
  (∀ l, l ∈ tasks r → taskObjs h' !! l = taskObjs h !! l) →
  wellFormed h r → wellFormed h' r.
Proof.
  unfold wellFormed. rewrite !Forall_forall. intros Hag Hwf l Hl.
  rewrite Hag by done. by apply Hwf.
Qed.

Lemma totalsAgree_agree h h' r :
  (∀ l, l ∈ tasks r → taskObjs h' !! l = taskObjs h !! l) →
  totalsAgree h r → totalsAgree h' r.
Proof. intros Hag. unfold totalsAgree. by rewrite (tasksOf_agree h h'). Qed.

Lemma taskIds_hasId h r taskId :
  taskId ∈ taskIds h r ↔ ∃ l, l ∈ tasks r ∧ hasId h taskId l.
Proof.
  unfold taskIds, tasksOf, hasId. rewrite list_elem_of_fmap. split.
  - intros (t & -> & Ht). apply list_elem_of_omap in Ht as (l & Hl & Hlk).
    exists l. split; [done|]. by rewrite Hlk.
  - intros (l & Hl & Hid). destruct (taskObjs h !! l) as [t|] eqn:Hlk; [|done].
    exists t. split; [by inversion Hid|]. apply list_elem_of_omap. eauto.
Qed.

(** ** Rendering *)

Lemma quoteEffect_state w : state (quoteEffect w) = state w.
Proof. unfold quoteEffect. by case_decide. Qed.

Lemma quoteEffect_heap w : heap (quoteEffect w) = heap w.
Proof. unfold quoteEffect. by case_decide. Qed.

Lemma quoteEffect_selectedDate w : selectedDate (quoteEffect w) = selectedDate w.
Proof. unfold quoteEffect. by case_decide. Qed.

Lemma quoteEffect_currentRecord w : currentRecord (quoteEffect w) = currentRecord w.
Proof. unfold quoteEffect. by case_decide. Qed.

Lemma useMemo_state w : state (useMemo w) = state w.
Proof. unfold useMemo. by destruct (computeCurrentRecord _ _ _). Qed.

Lemma useMemo_selectedDate w : selectedDate (useMemo w) = selectedDate w.
Proof. unfold useMemo. by destruct (computeCurrentRecord _ _ _). Qed.

Create Rewrite HintDb render.
#[local] Hint Rewrite quoteEffect_state quoteEffect_heap quoteEffect_selectedDate
  quoteEffect_currentRecord useMemo_state useMemo_selectedDate : render.

(** Looks through the effect of a re-render. *)
Ltac rerendered :=
  unfold setState, setSelectedDate, mount; autorewrite with render.

Lemma useMemo_stored w r :
  records (state w) !! selectedDate w = Some r →
  currentRecord (useMemo w) = r ∧ heap (useMemo w) = heap w.
Proof. intros Hr. unfold useMemo, computeCurrentRecord. by rewrite Hr. Qed.

Lemma computeCurrentRecord_fresh s d h :
  records s !! d = None →
  isTemplateRecord (computeCurrentRecord s d h).2 s d (computeCurrentRecord s d h).1.
Proof.
  intros Hn. unfold computeCurrentRecord. rewrite Hn. simpl.
  repeat split; simpl.
  - unfold tasksOf. simpl. apply omap_lookup_seq.
  - by rewrite foldl_add.
  - by rewrite list_lookup_middle.
Qed.

Lemma useMemo_fresh w :
  records (state w) !! selectedDate w = None →
  isTemplateRecord (heap (useMemo w)) (state w) (selectedDate w) (currentRecord (useMemo w)).
Proof.
  intros Hn. assert (H := computeCurrentRecord_fresh (state w) (selectedDate w) (heap w) Hn).
  unfold useMemo. by destruct (computeCurrentRecord _ _ _).
Qed.

Lemma setState_state f b w : state (setState f b w) = f (state w).
Proof. rerendered. destruct b; [by rewrite useMemo_state | done]. Qed.

Lemma setState_selectedDate f b w : selectedDate (setState f b w) = selectedDate w.
Proof. rerendered. destruct b; [by rewrite useMemo_selectedDate | done]. Qed.

Lemma setState_stored f w r :
  records (f (state w)) !! selectedDate w = Some r →
  currentRecord (setState f true w) = r ∧ heap (setState f true w) = heap w.
Proof. intros Hr. rerendered. by apply (useMemo_stored (mkWorld _ _ _ _ _ _)). Qed.

Lemma setState_fresh f w :
  records (f (state w)) !! selectedDate w = None →
  isTemplateRecord (heap (setState f true w)) (f (state w)) (selectedDate w)
                   (currentRecord (setState f true w)).
Proof. intros Hn. rerendered. by apply (useMemo_fresh (mkWorld _ _ _ _ _ _)). Qed.

Lemma setSelectedDate_state d w : state (setSelectedDate d w) = state w.
Proof. unfold setSelectedDate. case_decide; [done|]. by autorewrite with render. Qed.

Lemma setSelectedDate_fresh d w :
  d ≠ selectedDate w → records (state w) !! d = None →
  isTemplateRecord (heap (setSelectedDate d w)) (state w) d (currentRecord (setSelectedDate d w)).
Proof.
  intros Hd Hn. unfold setSelectedDate. rewrite decide_False by done.
  autorewrite with render. by apply (useMemo_fresh (mkWorld _ _ _ _ _ _)).
Qed.

Lemma mount_fresh s h d :
  records s !! d = None →
  isTemplateRecord (heap (mount s h d)) s d (currentRecord (mount s h d)).
Proof. intros Hn. rerendered. by apply (useMemo_fresh (mkWorld _ _ _ _ _ _)). Qed.

(** The quote effect has run after every render. *)
Lemma quoteEffect_rendered w : rendered (quoteEffect w).
Proof. unfold rendered, quoteEffect. by case_decide. Qed.

Lemma setState_rendered f b w : rendered (setState f b w).
Proof. apply quoteEffect_rendered. Qed.

Lemma rendered_mount s h d : rendered (mount s h d).
Proof. apply quoteEffect_rendered. Qed.

Lemma rendered_step w e : rendered w → rendered (step w e).
Proof.
  intros Hw. destruct e; simpl; try apply setState_rendered.
  - unfold setSelectedDate. case_decide; [done | apply quoteEffect_rendered].
  - unfold toggleTask. destruct (list_find _ _) as [[i l]|]; [apply setState_rendered | done].
  - unfold togglePrayer. destruct (prayers _); apply setState_rendered.
  - unfold updateTaskInstance. destruct (mapTasks _ _ _ _). apply setState_rendered.
  - destruct confirmed; [apply setState_rendered | done].
  - unfold quoteArrives. destruct (pending w !! i); [apply setState_rendered | done].
Qed.

(** ** [updateRecord] *)

Lemma updateRecord_lookup record w :
  records (state (updateRecord record w)) !! selectedDate w
  = Some (recompute (heap w) record).
Proof.
  unfold updateRecord. rewrite setState_state. simpl. apply lookup_insert_eq.
Qed.

Lemma updateRecord_lookup_ne record w d :
  d ≠ selectedDate w →
  records (state (updateRecord record w)) !! d = records (state w) !! d.
Proof.
  intros Hd. unfold updateRecord. rewrite setState_state. simpl.
  by apply lookup_insert_ne.
Qed.

Lemma updateRecord_rendered record w :
  currentRecord (updateRecord record w) = recompute (heap w) record ∧
  heap (updateRecord record w) = heap w.
Proof. unfold updateRecord. apply setState_stored. simpl. apply lookup_insert_eq. Qed.

Lemma updateRecord_selectedDate record w :
  selectedDate (updateRecord record w) = selectedDate w.
Proof. apply setState_selectedDate. Qed.

(** The left folds of [reduce] are the sums of the specification. *)
Lemma reduce_earned (ts : list TaskInstance) (a : Z) :
  foldl (λ acc (t : TaskInstance), acc + (if completed t then points t else 0)) a ts
  = a + earnedPoints ts.
Proof.
  revert a. unfold earnedPoints.
  induction ts as [|t ts IH]; intros a; simpl.
  - lia.
  - rewrite IH, filter_cons. destruct (completed t) eqn:Hc.
    + rewrite decide_True, fmap_cons, sumZ_cons by done. lia.
    + rewrite decide_False by done. lia.
Qed.

Lemma reduce_possible (ts : list TaskInstance) (a : Z) :
  foldl (λ acc (t : TaskInstance), acc + points t) a ts = a + possiblePoints ts.
Proof. apply (foldl_add (λ t : TaskInstance, points t)). Qed.

Lemma recompute_eq h record :
  recompute h record =
  let ts := tasksOf h (tasks record) in
  mkRecord (date record) (tasks record) (earnedPoints ts) (possiblePoints ts)
           (customQuote record)
           (Some (getReportComment (progressPerc (earnedPoints ts) (possiblePoints ts))))
           (prayers record).
Proof.
  unfold recompute. simpl. rewrite reduce_earned, reduce_possible.
  by rewrite !Z.add_0_l.
Qed.

Lemma recompute_totalsAgree h record : totalsAgree h (recompute h record).
Proof. by rewrite recompute_eq. Qed.

Lemma recompute_recompute h h' r : recompute h (recompute h' r) = recompute h r.
Proof. done. Qed.

Lemma updateRecord_totalsAgree record w :
  ∃ r, records (state (updateRecord record w)) !! selectedDate w = Some r ∧
       currentRecord (updateRecord record w) = r ∧
       totalsAgree (heap (updateRecord record w)) r.
Proof.
  exists (recompute (heap w) record).
  destruct (updateRecord_rendered record w) as [Hc Hh].
  rewrite Hh. auto using updateRecord_lookup, recompute_totalsAgree.
Qed.

(** Every operation that commits is [updateRecord] on some record, in some
    store. *)
Lemma commits_updateRecord w e :
  commits w e → ∃ record h, step w e = updateRecord record (withHeap h w).
Proof.
  intros [taskId Hin|prayer|taskId updates|taskId|random36]; simpl.
  - apply taskIds_hasId in Hin as (l & Hl & Hid).
    destruct (list_find_elem_of (hasId (heap w) taskId) _ l Hl Hid) as [[i l'] Hf].
    unfold toggleTask. rewrite Hf. eauto.
  - unfold togglePrayer. destruct (prayers (currentRecord w)); eauto.
  - unfold updateTaskInstance. destruct (mapTasks _ _ _ _) as [ls objs]. eauto.
  - exists (withTasks (filter (λ l, ¬ hasId (heap w) taskId l) (tasks (currentRecord w)))
                      (currentRecord w)), (heap w).
    by destruct w.
  - unfold defineGoal. eauto.
Qed.

(** ** Report comment *)

Ltac tier_cases tier :=
  destruct tier; simpl; split; intros ?; try discriminate; try done; try lra.

Lemma getReportComment_tier (p q : Q) (tier : Tier) :
  (p == q)%Q → (0 <= q)%Q → (q <= 100)%Q →
  getReportComment p = tierComment tier ↔ inTier q tier.
Proof.
  intros Hpq H0 H100. unfold getReportComment.
  destruct (Qeq_bool p 0) eqn:E0.
  { apply Qeq_bool_iff in E0. tier_cases tier. }
  apply Qeq_bool_neq in E0.
  destruct (Qltb p 30) eqn:E30.
  { apply Qltb_lt in E30. tier_cases tier. }
  apply Qltb_ge in E30.
  destruct (Qltb p 60) eqn:E60.
  { apply Qltb_lt in E60. tier_cases tier. }
  apply Qltb_ge in E60.
  destruct (Qltb p 100) eqn:E100.
  { apply Qltb_lt in E100. tier_cases tier. }
  apply Qltb_ge in E100. tier_cases tier.
Qed.

(** With a non-negative maximum the clamp [|| 1] is [max(_, 1)]. *)
Lemma progressPerc_progressPercent e m :
  0 ≤ m → (progressPerc e m == progressPercent e m)%Q.
Proof.
  intros Hm. unfold progressPerc, progressPercent. rewrite orZ_max by done.
  unfold Qdiv. ring.
Qed.

Lemma progressPercent_bounds e m :
  0 ≤ e → e ≤ m → (0 <= progressPercent e m)%Q ∧ (progressPercent e m <= 100)%Q.
Proof.
  intros He Hm. unfold progressPercent.
  assert (Hpos : (0 < inject_Z (Z.max m 1))%Q).
  { change 0%Q with (inject_Z 0). rewrite <- Zlt_Qlt. lia. }
  assert (He' : (0 <= inject_Z e)%Q).
  { change 0%Q with (inject_Z 0). by rewrite <- Zle_Qle. }
  assert (Hm' : (inject_Z e <= inject_Z (Z.max m 1))%Q).
  { rewrite <- Zle_Qle. lia. }
  split.
  - apply Qle_shift_div_l; [done|]. lra.
  - apply Qle_shift_div_r; [done|]. lra.
Qed.

Lemma earned_le_possible (ts : list TaskInstance) :
  Forall (λ t : TaskInstance, 0 ≤ points t) ts →
  0 ≤ earnedPoints ts ∧ earnedPoints ts ≤ possiblePoints ts.
Proof.
  unfold earnedPoints, possiblePoints.
  induction 1 as [|t ts Ht _ IH]; [simpl; lia|].
  rewrite filter_cons, fmap_cons, sumZ_cons.
  case_decide; [rewrite fmap_cons, sumZ_cons|]; lia.
Qed.

(** ** Exact and binary64 arithmetic *)

Lemma agreeUpTo_300 : agreeUpTo 300 = true.
Proof. vm_compute. reflexivity. Qed.

Lemma agreeUpTo_spec (n : nat) (earned maxp : Z) :
  agreeUpTo n = true →
  0 ≤ earned ≤ maxp → maxp ≤ Z.of_nat n →
  getReportComment64 (progressPerc64 earned maxp)
  = getReportComment (progressPerc earned maxp).
Proof.
  unfold agreeUpTo. intros H He Hm.
  rewrite forallb_forall in H.
  specialize (H (Z.to_nat maxp)). rewrite forallb_forall in H.
  specialize (H ltac:(apply in_seq; lia) (Z.to_nat earned) ltac:(apply in_seq; lia)).
  rewrite !Z2Nat.id in H by lia. apply String.eqb_eq. exact H.
Qed.

(** On binary64 numbers the engine picks the same comment as the exact
    computation, for every record worth up to 300 points. *)
Lemma binary64_agrees (earned maxp : Z) :
  0 ≤ earned ≤ maxp → maxp ≤ 300 →
  getReportComment64 (progressPerc64 earned maxp)
  = getReportComment (progressPerc earned maxp).
Proof.
  intros He Hm. apply (agreeUpTo_spec 300); [exact agreeUpTo_300 | done | lia].
Qed.

(** ** Toggling *)

Lemma toggleTask_miss taskId w :
  taskId ∉ taskIds (heap w) (currentRecord w) →
  list_find (hasId (heap w) taskId) (tasks (currentRecord w)) = None.
Proof.
  intros Hn. apply list_find_None, Forall_forall. intros l Hl Hid.
  apply Hn, taskIds_hasId. eauto.
Qed.

Lemma toggleTask_hit taskId w :
  taskId ∈ taskIds (heap w) (currentRecord w) →
  ∃ i l, list_find (hasId (heap w) taskId) (tasks (currentRecord w)) = Some (i, l) ∧
         hasId (heap w) taskId l.
Proof.
  intros (l & Hl & Hid)%taskIds_hasId.
  destruct (list_find_elem_of (hasId (heap w) taskId) _ l Hl Hid) as [[i l'] Hf].
  exists i, l'. split; [done|]. by apply list_find_Some in Hf as (_ & ? & _).
Qed.

Lemma flipCompleted_involutive t : flipCompleted (flipCompleted t) = t.
Proof. destruct t as [t c]. unfold flipCompleted. simpl. by rewrite negb_involutive. Qed.

Lemma alter_flip_twice l (objs : list TaskInstance) :
  alter flipCompleted l (alter flipCompleted l objs) = objs.
Proof.
  rewrite list_alter_alter_eq. apply list_alter_id.
  intros t. apply flipCompleted_involutive.
Qed.

(** Flipping [completed] does not change which references carry an id. *)
Lemma hasId_flip objs ps l taskId l' :
  hasId (mkHeap (alter flipCompleted l objs) ps) taskId l' ↔
  hasId (mkHeap objs ps) taskId l'.
Proof.
  unfold hasId. simpl. destruct (decide (l = l')) as [->|Hne].
  - rewrite list_lookup_alter_eq, <- option_fmap_compose. reflexivity.
  - by rewrite list_lookup_alter_ne.
Qed.

(** The second toggle finds the task of the first one and flips it back. *)
Lemma toggleTask_twice taskId w :
  taskId ∈ taskIds (heap w) (currentRecord w) →
  let w2 := toggleTask taskId (toggleTask taskId w) in
  heap w2 = heap w ∧
  currentRecord w2 = recompute (heap w) (currentRecord w) ∧
  records (state w2) !! selectedDate w = Some (currentRecord w2).
Proof.
  intros Hin. destruct (toggleTask_hit _ _ Hin) as (i & l & Hfind & _).
  destruct w as [s d [objs ps] r deps pend]. simpl in *.
  set (h1 := mkHeap (alter flipCompleted l objs) ps).
  set (w1 := updateRecord r (mkWorld s d h1 r deps pend)).
  assert (Hw1 : toggleTask taskId (mkWorld s d (mkHeap objs ps) r deps pend) = w1).
  { unfold toggleTask. simpl. by rewrite Hfind. }
  rewrite Hw1.
  destruct (updateRecord_rendered r (mkWorld s d h1 r deps pend)) as [Hc1 Hh1].
  fold w1 in Hc1, Hh1. simpl in Hc1, Hh1.
  assert (Hd1 : selectedDate w1 = d) by apply updateRecord_selectedDate.
  assert (Hfind1 : list_find (hasId (heap w1) taskId) (tasks (currentRecord w1)) = Some (i, l)).
  { rewrite Hh1, Hc1. simpl. rewrite <- Hfind. apply list_find_ext.
    intros l'. apply hasId_flip. }
  unfold toggleTask. rewrite Hfind1.
  set (h2 := mkHeap _ _).
  assert (Hh2 : h2 = mkHeap objs ps).
  { unfold h2. rewrite Hh1. simpl. by rewrite alter_flip_twice. }
  destruct (updateRecord_rendered (currentRecord w1) (withHeap h2 w1)) as [Hc2 Hh2'].
  simpl in Hc2, Hh2'. rewrite Hh2', Hc2, Hc1, Hh2, recompute_recompute.
  split_and!; [done..|].
  rewrite <- Hd1.
  change (selectedDate w1) with (selectedDate (withHeap (mkHeap objs ps) w1)).
  by rewrite updateRecord_lookup.
Qed.

(** ** Viewing a date and fetching its quote *)

Lemma step_untouched d w e :
  ¬ touches d w e →
  records (state w) !! d = None →
  records (state (step w e)) !! d = None.
Proof.
  intros Ht Hn. destruct e; simpl in *.
  - by rewrite setSelectedDate_state.
  - unfold toggleTask. destruct (list_find _ _) as [[i l]|]; [|done].
    rewrite (updateRecord_lookup_ne _ (withHeap _ w)); [done|]. simpl. congruence.
  - unfold togglePrayer. destruct (prayers _);
      (rewrite (updateRecord_lookup_ne _ (withHeap _ w)); [done|]; simpl; congruence).
  - unfold updateTaskInstance. destruct (mapTasks _ _ _ _).
    rewrite (updateRecord_lookup_ne _ (withHeap _ w)); [done|]. simpl. congruence.
  - unfold deleteTaskInstance. rewrite updateRecord_lookup_ne; [done|]. congruence.
  - unfold defineGoal.
    rewrite (updateRecord_lookup_ne _ (withHeap _ w)); [done|]. simpl. congruence.
  - unfold editQuote. rewrite setState_state. simpl.
    rewrite lookup_insert_ne; [done|]. congruence.
  - destruct confirmed; [|done]. unfold clearAllRecords. by rewrite setState_state.
  - unfold toggleDarkMode. by rewrite setState_state.
  - unfold setProfileName. by rewrite setState_state.
  - unfold quoteArrives. destruct (pending w !! i) as [p|] eqn:Hp; [|done].
    rewrite setState_state. simpl. rewrite lookup_insert_ne; [done|].
    intros Heq. apply Ht. simpl. by rewrite Heq.
Qed.

Lemma run_untouched d es : ∀ w,
  untouched d w es →
  records (state w) !! d = None →
  records (state (run w es)) !! d = None.
Proof.
  induction es as [|e es IH]; intros w Hu Hn; [done|].
  destruct Hu as [Ht Hu]. simpl. apply IH; [done|]. by apply step_untouched.
Qed.

(** Selecting an unstored date shows the template record and starts a fetch
    whose closure holds that record. *)
Lemma setSelectedDate_fetch d w :
  rendered w → d ≠ selectedDate w → records (state w) !! d = None →
  let w1 := setSelectedDate d w in
  isTemplateRecord (heap w1) (state w) d (currentRecord w1) ∧
  pending w1 = pending w ++ [mkPending d (currentRecord w1)].
Proof.
  intros Hr Hd Hn. unfold setSelectedDate. rewrite decide_False by done.
  assert (Hfresh := computeCurrentRecord_fresh (state w) d (heap w) Hn).
  unfold useMemo. simpl. destruct (computeCurrentRecord _ _ _) as [r h]. simpl in Hfresh.
  destruct Hfresh as (Hdate & Hts & Hz & Hm & Hq & Hc & Hp).
  unfold quoteEffect. simpl. rewrite decide_False.
  2:{ rewrite Hr. intros [= ? _]. done. }
  simpl. by rewrite Hq.
Qed.

(** The answer is written whatever the mapping holds for the date by then. *)
Lemma quoteArrives_lookup i q p w :
  pending w !! i = Some p →
  records (state (quoteArrives i q w)) !! fetchDate p
  = Some (withQuote (Some q) (fetchRecord p)).
Proof.
  intros Hp. unfold quoteArrives. rewrite Hp, setState_state. simpl.
  apply lookup_insert_eq.
Qed.

(** ** Statistics *)

Lemma allRecords_Permutation s : allRecords s ≡ₚ (map_to_list (records s)).*2.
Proof. apply merge_sort_Permutation. Qed.

Lemma allRecords_length s : length (allRecords s) = size (records s).
Proof.
  rewrite (Permutation_length (allRecords_Permutation s)), length_fmap.
  apply length_map_to_list.
Qed.

Lemma avgScore_eq s :
  avgScore s = if decide (size (records s) = 0%nat) then 0
               else Math_round (meanScore (records s)).
Proof.
  unfold avgScore, meanScore. rewrite allRecords_length.
  case_decide; [done|]. f_equal. f_equal. f_equal.
  rewrite foldl_add, Z.add_0_l.
  rewrite (sumZ_Permutation _ _ (fmap_Permutation _ _ _ (allRecords_Permutation s))).
  f_equal. apply list_fmap_ext. intros i r _. apply orZ_0.
Qed.

(** ** The invariant of the component *)

Lemma Sound_empty h : Sound h ∅.
Proof. split; intros *; by rewrite ?lookup_empty. Qed.

Lemma Sound_weaken h m m' :
  (∀ d r, m !! d = Some r → m' !! d = Some r) → Sound h m' → Sound h m.
Proof.
  intros Hsub [Hwf Ht Hs]. split.
  - intros d r Hr. eapply Hwf. by apply Hsub.
  - intros d r Hr. eapply Ht. by apply Hsub.
  - intros d d' r r' l Hd Hr Hr'. eapply Hs; [done | by apply Hsub | by apply Hsub].
Qed.

(** Writing the record [rc] under [sel], in a store [h'] that agrees with the
    old one on the objects of the other records, none of which [rc] uses. *)
Lemma Sound_insert h h' m sel rc :
  Sound h m →
  (∀ d r l, d ≠ sel → m !! d = Some r → l ∈ tasks r →
            taskObjs h' !! l = taskObjs h !! l ∧ l ∉ tasks rc) →
  wellFormed h' rc → totalsAgree h' rc →
  Sound h' (<[sel := rc]> m).
Proof.
  intros [Hwf Ht Hs] Hoth Hwfc Htc. split.
  - intros d r. rewrite lookup_insert. case_decide as Hd.
    + by intros [= <-].
    + intros Hr. apply (wellFormed_agree h); [|by eapply Hwf].
      intros l Hl. by apply (Hoth d r l).
  - intros d r. rewrite lookup_insert. case_decide as Hd.
    + by intros [= <-].
    + intros Hr. apply (totalsAgree_agree h); [|by eapply Ht].
      intros l Hl. by apply (Hoth d r l).
  - intros d d' r r' l Hne. rewrite !lookup_insert.
    case_decide as Hd; case_decide as Hd'; subst.
    + done.
    + intros [= <-] Hr' Hl Hl'. by apply (Hoth d' r' l).
    + intros Hr [= <-] Hl. by apply (Hoth d r l).
    + intros Hr Hr'. exact (Hs d d' r r' l Hne Hr Hr').
Qed.

Lemma shown_selected w : shown w !! selectedDate w = Some (currentRecord w).
Proof. apply lookup_insert_eq. Qed.

Lemma shown_other w d : d ≠ selectedDate w → shown w !! d = records (state w) !! d.
Proof. intros Hd. by apply lookup_insert_ne. Qed.

Lemma earnedPoints_fresh (ts : list TaskTemplate) :
  earnedPoints ((λ t, mkTask t false) <$> ts) = 0.
Proof.
  unfold earnedPoints. induction ts as [|t ts IH]; [done|].
  rewrite fmap_cons, filter_cons, decide_False by done. exact IH.
Qed.

Lemma possiblePoints_fresh (ts : list TaskTemplate) :
  possiblePoints ((λ t, mkTask t false) <$> ts) = sumZ (points <$> ts).
Proof. unfold possiblePoints. by rewrite <- list_fmap_compose. Qed.

Lemma isTemplateRecord_totalsAgree h s d r :
  isTemplateRecord h s d r → totalsAgree h r.
Proof.
  intros (_ & Hts & Hz & Hm & _). unfold totalsAgree.
  by rewrite Hts, earnedPoints_fresh, possiblePoints_fresh.
Qed.

(** *** Renders establish the invariant *)

Lemma useMemo_Inv w :
  Sound (heap w) (records (state w)) → Inv (useMemo w).
Proof.
  intros Hs. unfold Inv, shown. rewrite useMemo_state, useMemo_selectedDate.
  destruct (records (state w) !! selectedDate w) as [r|] eqn:Hr.
  - destruct (useMemo_stored w r Hr) as [-> ->]. split; [congruence|].
    by rewrite insert_id.
  - split; [done|].
    assert (Hf := useMemo_fresh w Hr).
    assert (Hdef : currentRecord (useMemo w)
                   = (computeCurrentRecord (state w) (selectedDate w) (heap w)).1
                 ∧ heap (useMemo w)
                   = (computeCurrentRecord (state w) (selectedDate w) (heap w)).2).
    { unfold useMemo. by destruct (computeCurrentRecord _ _ _). }
    destruct Hdef as [Hc Hh]. unfold computeCurrentRecord in Hc, Hh.
    rewrite Hr in Hc, Hh. simpl in Hc, Hh.
    apply (Sound_insert (heap w)); [done | | |].
    + intros d r l _ Hd Hl.
      assert (Hlt := wellFormed_valid _ _ _ (sound_wf _ _ Hs d r Hd) Hl).
      split.
      * rewrite Hh. simpl. by rewrite lookup_app_l.
      * rewrite Hc. simpl. rewrite elem_of_seq. lia.
    + unfold wellFormed. rewrite Hc, Hh. simpl. apply Forall_forall.
      intros l Hl. apply elem_of_seq in Hl. apply lookup_lt_is_Some.
      rewrite length_app, length_fmap. rewrite length_fmap in Hl. lia.
    + by eapply isTemplateRecord_totalsAgree.
Qed.

Lemma quoteEffect_Inv w : Inv w → Inv (quoteEffect w).
Proof. unfold Inv, shown. by autorewrite with render. Qed.

Lemma setState_Inv f w :
  Sound (heap w) (records (f (state w))) → Inv (setState f true w).
Proof.
  intros Hs. unfold setState. apply quoteEffect_Inv.
  by apply (useMemo_Inv (mkWorld _ _ _ _ _ _)).
Qed.

Lemma mount_Inv s h d : Sound h (records s) → Inv (mount s h d).
Proof.
  intros Hs. unfold mount. apply quoteEffect_Inv.
  by apply (useMemo_Inv (mkWorld _ _ _ _ _ _)).
Qed.

(** The new arrays of [updateTaskInstance] hold references of the old array
    and new objects; the store only grows. *)
Lemma mapTasks_spec taskId u ls : ∀ objs ls' objs',
  mapTasks taskId u objs ls = (ls', objs') →
  Forall (λ l, is_Some (objs !! l)) ls →
  (∃ new, objs' = objs ++ new) ∧
  Forall (λ l, l ∈ ls ∨ (length objs ≤ l)%nat) ls' ∧
  Forall (λ l, is_Some (objs' !! l)) ls'.
Proof.
  induction ls as [|l ls IH]; intros objs ls' objs' Hmap Hwf; simpl in Hmap.
  - injection Hmap as <- <-. split_and!; [by exists []; rewrite app_nil_r | done | done].
  - apply Forall_cons in Hwf as [[t Ht] Hwf]. rewrite Ht in Hmap.
    destruct (decide (id t = taskId)) as [Hid|Hid].
    + destruct (mapTasks taskId u (objs ++ [merge t u]) ls) as [ls1 objs1] eqn:Hrec.
      injection Hmap as <- <-.
      destruct (IH _ _ _ Hrec) as ([new Hnew] & Hsub & Hval).
      { eapply Forall_impl; [exact Hwf|]. intros l' [t' Hl']. exists t'.
        by apply lookup_app_l_Some. }
      rewrite <- app_assoc in Hnew. simpl in Hnew.
      split_and!.
      * by eexists.
      * constructor; [right; lia|].
        eapply Forall_impl; [exact Hsub|]. intros l' [Hl'|Hl'].
        -- left. by right.
        -- right. rewrite length_app in Hl'. simpl in Hl'. lia.
      * constructor; [|done]. rewrite Hnew, list_lookup_middle by done. by eexists.
    + destruct (mapTasks taskId u objs ls) as [ls1 objs1] eqn:Hrec.
      injection Hmap as <- <-.
      destruct (IH _ _ _ Hrec Hwf) as ([new Hnew] & Hsub & Hval).
      split_and!.
      * by eexists.
      * constructor; [left; left|].
        eapply Forall_impl; [exact Hsub|]. intros l' [Hl'|Hl']; [left; by right | by right].
      * constructor; [|done]. rewrite Hnew. exists t. by apply lookup_app_l_Some.
Qed.

(** *** The handlers of the user events preserve it *)

Section Preservation.
Context (w : World) (Hi : Inv w).

Lemma records_shown d r :
  records (state w) !! d = Some r → shown w !! d = Some r.
Proof.
  destruct Hi as [Hm _]. intros Hr.
  destruct (decide (d = selectedDate w)) as [->|Hd].
  - by rewrite shown_selected, (Hm r Hr).
  - by rewrite shown_other.
Qed.

Lemma Inv_records : Sound (heap w) (records (state w)).
Proof. eapply Sound_weaken; [|apply Hi]. apply records_shown. Qed.

Lemma Inv_current_wf : wellFormed (heap w) (currentRecord w).
Proof. exact (sound_wf _ _ (proj2 Hi) _ _ (shown_selected w)). Qed.

Lemma Inv_current_totals : totalsAgree (heap w) (currentRecord w).
Proof. exact (sound_totals _ _ (proj2 Hi) _ _ (shown_selected w)). Qed.

(** No other record uses a task object of the record on display. *)
Lemma Inv_current_sep d r l :
  d ≠ selectedDate w → shown w !! d = Some r → l ∈ tasks r →
  l ∉ tasks (currentRecord w).
Proof.
  intros Hd Hr Hl Hin.
  exact (sound_sep _ _ (proj2 Hi) _ _ _ _ l Hd Hr (shown_selected w) Hl Hin).
Qed.

Lemma setState_keep_Inv f :
  records (f (state w)) = records (state w) → Inv (setState f false w).
Proof.
  intros Hrec. unfold setState. apply quoteEffect_Inv.
  unfold Inv, shown in *. simpl. by rewrite Hrec.
Qed.

Lemma setSelectedDate_Inv d : Inv (setSelectedDate d w).
Proof.
  unfold setSelectedDate. case_decide; [done|].
  apply quoteEffect_Inv, (useMemo_Inv (mkWorld _ _ _ _ _ _)). simpl.
  apply Inv_records.
Qed.

(** A commit of [rc], whose tasks are tasks of the record on display or new
    objects, in a store [h'] that differs from the old one only at the
    objects of the record on display and at new locations. *)
Lemma updateRecord_Inv rc h' :
  (∀ l, l ∈ tasks rc →
        l ∈ tasks (currentRecord w) ∨ (length (taskObjs (heap w)) ≤ l)%nat) →
  (∀ l, (l < length (taskObjs (heap w)))%nat → l ∉ tasks (currentRecord w) →
        taskObjs h' !! l = taskObjs (heap w) !! l) →
  wellFormed h' rc →
  Inv (updateRecord rc (withHeap h' w)).
Proof.
  intros Hsub Hag Hwf. unfold updateRecord. apply setState_Inv. simpl.
  assert (Hins : <[selectedDate w := recompute h' rc]> (records (state w))
                 = <[selectedDate w := recompute h' rc]> (shown w)).
  { unfold shown. by rewrite insert_insert_eq. }
  rewrite Hins.
  apply (Sound_insert (heap w));
    [apply Hi | | done | apply recompute_totalsAgree].
  intros d r l Hd Hr Hl.
  assert (Hlt := wellFormed_valid _ _ _ (sound_wf _ _ (proj2 Hi) d r Hr) Hl).
  assert (Hnin := Inv_current_sep d r l Hd Hr Hl).
  split; [by apply Hag|].
  intros Hin. destruct (Hsub l Hin) as [?|?]; [done | lia].
Qed.

Lemma toggleTask_Inv taskId : Inv (toggleTask taskId w).
Proof.
  unfold toggleTask.
  destruct (list_find _ _) as [[i l]|] eqn:Hfind; [|done].
  apply list_find_Some in Hfind as (Hl & _ & _).
  apply list_elem_of_lookup_2 in Hl.
  apply updateRecord_Inv; [by left | |].
  - intros l' _ Hl'. simpl. apply list_lookup_alter_ne. by intros ->.
  - unfold wellFormed. simpl. eapply Forall_impl; [exact Inv_current_wf|].
    intros l' Hsome. apply lookup_lt_is_Some. rewrite length_alter.
    by apply lookup_lt_is_Some.
Qed.

Lemma togglePrayer_Inv prayer : Inv (togglePrayer prayer w).
Proof.
  unfold togglePrayer. assert (Hwf := Inv_current_wf).
  destruct (prayers (currentRecord w)); by apply updateRecord_Inv; [left| |].
Qed.

Lemma updateTaskInstance_Inv taskId updates :
  Inv (updateTaskInstance taskId updates w).
Proof.
  unfold updateTaskInstance.
  destruct (mapTasks _ _ _ _) as [ls objs] eqn:Hmap.
  destruct (mapTasks_spec _ _ _ _ _ _ Hmap Inv_current_wf) as ([new ->] & Hsub & Hval).
  apply updateRecord_Inv; [| |done].
  - intros l Hl. simpl in Hl. by apply (proj1 (Forall_forall _ _) Hsub).
  - intros l Hlt _. simpl. by rewrite lookup_app_l.
Qed.

Lemma deleteTaskInstance_Inv taskId : Inv (deleteTaskInstance taskId w).
Proof.
  unfold deleteTaskInstance. assert (Hwf := Inv_current_wf).
  assert (Hw : withHeap (heap w) w = w) by by destruct w.
  rewrite <- Hw at 2. apply updateRecord_Inv; [|done|].
  - intros l Hl. simpl in Hl. apply list_elem_of_filter in Hl as [_ Hl]. by left.
  - unfold wellFormed in *. simpl. rewrite Forall_forall in *.
    intros l Hl. apply list_elem_of_filter in Hl as [_ Hl]. by apply Hwf.
Qed.

Lemma defineGoal_Inv random36 : Inv (defineGoal random36 w).
Proof.
  unfold defineGoal. apply updateRecord_Inv.
  - intros l Hl. simpl in Hl. apply elem_of_app in Hl as [Hl|Hl]; [by left|].
    apply list_elem_of_singleton in Hl as ->. by right.
  - intros l Hlt _. simpl. by rewrite lookup_app_l.
  - unfold wellFormed. simpl. apply Forall_app. split.
    + eapply Forall_impl; [exact Inv_current_wf|]. intros l [t Hl]. exists t.
      by apply lookup_app_l_Some.
    + constructor; [|done]. rewrite list_lookup_middle by done. by eexists.
Qed.

Lemma editQuote_Inv text : Inv (editQuote text w).
Proof.
  unfold editQuote. apply setState_Inv. simpl.
  assert (Hins : <[selectedDate w := withQuote (Some text) (currentRecord w)]>
                   (records (state w))
                 = <[selectedDate w := withQuote (Some text) (currentRecord w)]> (shown w)).
  { unfold shown. by rewrite insert_insert_eq. }
  rewrite Hins.
  apply (Sound_insert (heap w));
    [apply Hi | | exact Inv_current_wf | exact Inv_current_totals].
  intros d r l Hd Hr Hl. split; [done|]. by apply (Inv_current_sep d r l).
Qed.

Lemma step_Inv e : userEvent e → Inv (step w e).
Proof.
  intros He. destruct e; simpl.
  - apply setSelectedDate_Inv.
  - apply toggleTask_Inv.
  - apply togglePrayer_Inv.
  - apply updateTaskInstance_Inv.
  - apply deleteTaskInstance_Inv.
  - apply defineGoal_Inv.
  - apply editQuote_Inv.
  - destruct confirmed; [|done]. apply setState_Inv, Sound_empty.
  - by apply setState_keep_Inv.
  - by apply setState_keep_Inv.
  - done.
Qed.
End Preservation.

Lemma run_Inv es : ∀ w, Forall userEvent es → Inv w → Inv (run w es).
Proof.
  induction es as [|e es IH]; intros w Hes Hi; [done|].
  apply Forall_cons in Hes as [He Hes]. simpl. apply IH; [done|]. by apply step_Inv.
Qed.

(** * The claims *)

(** Membership in a list that computes. *)
Ltac in_computed_list := apply list_elem_of_In; vm_compute; tauto.

(** What every commit does establish: whenever a mutation operation (toggle
    of a present task, edit, add, delete, prayer toggle) goes through
    [updateRecord], the record it stores under the selected date has
    [totalPointsEarned] equal to the sum of the points of its completed tasks
    and [maxPointsPossible] equal to the sum of the points of all its tasks.
    The records of the other dates are not recomputed. *)
Theorem commit_totals (w : World) (e : Event) :
  commits w e →
  ∃ r, records (state (step w e)) !! selectedDate w = Some r ∧
       currentRecord (step w e) = r ∧
       totalsAgree (heap (step w e)) r.
Proof.
  intros (record & h & ->)%commits_updateRecord.
  apply (updateRecord_totalsAgree record (withHeap h w)).
Qed.

Lemma commit_totals_witness :
  commits freshWorld (ToggleTask "2") ∧
  ∃ r, records (state (step freshWorld (ToggleTask "2"))) !! selectedDate freshWorld = Some r ∧
       currentRecord (step freshWorld (ToggleTask "2")) = r ∧
       totalsAgree (heap (step freshWorld (ToggleTask "2"))) r.
Proof.
  assert (H : commits freshWorld (ToggleTask "2")).
  { constructor. in_computed_list. }
  split; [exact H | exact (commit_totals freshWorld (ToggleTask "2") H)].
Defined.

(** The two sums as an invariant of the whole mapping: started from a sound
    state, and as long as only user events occur, every stored record and the
    record on display have the two sums as their totals, and every task
    reference denotes an object.  The answer of a pending quote fetch is what
    can break it ([late_quote_reverts_totals] below). *)
Theorem totals_invariant (s : AppState) (h : Heap) (d0 : string) (es : list Event) :
  Sound h (records s) →
  Forall userEvent es →
  let w := run (mount s h d0) es in
  wellFormed (heap w) (currentRecord w) ∧
  totalsAgree (heap w) (currentRecord w) ∧
  ∀ d r, records (state w) !! d = Some r → totalsAgree (heap w) r.
Proof.
  intros Hs Hes w.
  assert (Hi : Inv w) by (apply run_Inv; [done | by apply mount_Inv]).
  split_and!.
  - by apply Inv_current_wf.
  - by apply Inv_current_totals.
  - intros d r Hr. exact (sound_totals _ _ (Inv_records w Hi) d r Hr).
Qed.

Example totals_invariant_twoDays :
  ∀ d r, records (state twoDays) !! d = Some r → totalsAgree (heap twoDays) r.
Proof.
  apply (totals_invariant (initialState false) emptyHeap today
           [ToggleTask "6"; SetSelectedDate tomorrow; ToggleTask "1"]).
  - apply Sound_empty.
  - repeat constructor.
Qed.

(** C1 fails on the code.  The first render starts a quote fetch, which
    captures the record of today with its totals of 0.  The user completes
    task 2, worth 20 points; the commit stores 20.  The provider's answer
    arrives and stores the captured record, totals included, over the
    committed one, while the task objects, which both records share, keep the
    toggle.  The user selects the next day and completes task 1: this toggle
    goes through [updateRecord], and right after it the record stored for
    today has [totalPointsEarned = 0] although its completed task is worth
    20 points. *)
Theorem stale_totals_after_commit :
  let w := run freshWorld
             [ToggleTask "2"; QuoteArrives 0 "late"; SetSelectedDate tomorrow] in
  let w' := step w (ToggleTask "1") in
  commits w (ToggleTask "1") ∧
  ∃ r, records (state w') !! today = Some r ∧
       totalPointsEarned r = 0 ∧
       earnedPoints (tasksOf (heap w') (tasks r)) = 20 ∧
       ¬ totalsAgree (heap w') r.
Proof.
  intros w w'. split.
  - constructor. in_computed_list.
  - destruct (records (state w') !! today) as [r|] eqn:Hr; [|by vm_compute in Hr].
    exists r. split; [done|].
    vm_compute in Hr. injection Hr as <-.
    split; [reflexivity|].
    match goal with
    | |- ?earned = 20 ∧ _ => assert (He : earned = 20) by (vm_compute; reflexivity)
    end.
    split; [exact He|].
    intros [Ht _]. rewrite He in Ht. discriminate.
Qed.

(** C2: the report comment stored by [updateRecord] is exactly the tier of
    [progressPercent = 100 * totalPointsEarned / max(maxPointsPossible, 1)]:
    empty canvas at 0, seed sower on (0, 30), momentum builder on [30, 60),
    peak performer on [60, 100), zenith master at 100; a record without tasks
    has progress 0 and the empty-canvas comment.  Points are non-negative, as
    the data model has them. *)
Theorem reportComment_tier (record : DailyRecord) (w : World) :
  Forall (λ t : TaskInstance, 0 ≤ points t) (tasksOf (heap w) (tasks record)) →
  ∃ r, records (state (updateRecord record w)) !! selectedDate w = Some r ∧
       (∀ tier, reportComment r = Some (tierComment tier) ↔
                inTier (progressPercent (totalPointsEarned r) (maxPointsPossible r)) tier) ∧
       (tasks record = [] →
          (progressPercent (totalPointsEarned r) (maxPointsPossible r) == 0)%Q ∧
          reportComment r = Some EMPTY_CANVAS).
Proof.
  intros Hpts. exists (recompute (heap w) record).
  split; [apply updateRecord_lookup|].
  rewrite recompute_eq. simpl.
  destruct (earned_le_possible _ Hpts) as [H0 Hle].
  destruct (progressPercent_bounds _ _ H0 Hle) as [Hlo Hhi].
  assert (Heq := progressPerc_progressPercent
                   (earnedPoints (tasksOf (heap w) (tasks record)))
                   (possiblePoints (tasksOf (heap w) (tasks record))) ltac:(lia)).
  split.
  - intros tier. rewrite <- (getReportComment_tier _ _ tier Heq Hlo Hhi).
    split; [by intros [= ->] | by intros ->].
  - intros Hnil. rewrite Hnil. by split.
Qed.

Lemma reportComment_tier_witness :
  Forall (λ t : TaskInstance, 0 ≤ points t)
         (tasksOf (heap committedWorld) (tasks (currentRecord committedWorld))) ∧
  ∃ r, records (state (updateRecord (currentRecord committedWorld) committedWorld))
         !! selectedDate committedWorld = Some r ∧
       (∀ tier, reportComment r = Some (tierComment tier) ↔
                inTier (progressPercent (totalPointsEarned r) (maxPointsPossible r)) tier) ∧
       (tasks (currentRecord committedWorld) = [] →
          (progressPercent (totalPointsEarned r) (maxPointsPossible r) == 0)%Q ∧
          reportComment r = Some EMPTY_CANVAS).
Proof.
  assert (H : Forall (λ t : TaskInstance, 0 ≤ points t)
                (tasksOf (heap committedWorld) (tasks (currentRecord committedWorld)))).
  { vm_compute. repeat constructor; discriminate. }
  split; [exact H | exact (reportComment_tier _ committedWorld H)].
Defined.

(** The boundaries that the specification names. *)
Example getReportComment_0_50 : getReportComment (progressPerc 0 50) = EMPTY_CANVAS.
Proof. reflexivity. Qed.

Example getReportComment_15_50 : getReportComment (progressPerc 15 50) = MOMENTUM_BUILDER.
Proof. reflexivity. Qed.

Example getReportComment_50_50 : getReportComment (progressPerc 50 50) = ZENITH_MASTER.
Proof. reflexivity. Qed.

Example getReportComment_0_0 : getReportComment (progressPerc 0 0) = EMPTY_CANVAS.
Proof. reflexivity. Qed.

(** C3, as the code has it: selecting a date is a pure read (the state is left
    as it was, and a date without a stored record is shown as the record
    synthesised from the templates), but the render starts a quote fetch for
    it, and the answer stores the viewed record under that date.  A date
    without a stored record keeps having none as long as no mutation or quote
    edit happens while it is selected and no fetched quote arrives for it.
    The date selected is a calendar date ([isoDate]): with another text the
    home view throws while it renders. *)
Theorem view_then_fetch (d : string) (w : World) :
  records (state w) !! d = None →
  (∀ es, untouched d w es → records (state (run w es)) !! d = None) ∧
  (rendered w → isoDate d = true → d ≠ selectedDate w →
     let w1 := setSelectedDate d w in
     state w1 = state w ∧
     isTemplateRecord (heap w1) (state w1) d (currentRecord w1) ∧
     pending w1 = pending w ++ [mkPending d (currentRecord w1)] ∧
     ∀ q, records (state (quoteArrives (length (pending w)) q w1)) !! d
          = Some (withQuote (Some q) (currentRecord w1))).
Proof.
  intros Hn. split.
  - intros es Hu. by apply run_untouched.
  - intros Hr _ Hd w1.
    assert (Hs : state w1 = state w) by apply setSelectedDate_state.
    destruct (setSelectedDate_fetch d w Hr Hd Hn) as [Ht Hp]. fold w1 in Ht, Hp.
    rewrite Hs. split_and!; [done..|].
    intros q.
    apply (quoteArrives_lookup _ q (mkPending d (currentRecord w1))).
    by rewrite Hp, list_lookup_middle.
Qed.

Lemma view_then_fetch_witness :
  records (state freshWorld) !! tomorrow = None ∧
  untouched tomorrow freshWorld [ToggleTask "1"; ToggleDarkMode] ∧
  records (state (run freshWorld [ToggleTask "1"; ToggleDarkMode])) !! tomorrow = None ∧
  rendered freshWorld ∧
  isoDate tomorrow = true ∧
  tomorrow ≠ selectedDate freshWorld ∧
  ∀ q, records (state (quoteArrives (length (pending freshWorld)) q
                         (setSelectedDate tomorrow freshWorld))) !! tomorrow
       = Some (withQuote (Some q)
                 (currentRecord (setSelectedDate tomorrow freshWorld))).
Proof.
  assert (Hn : records (state freshWorld) !! tomorrow = None) by reflexivity.
  assert (Hu : untouched tomorrow freshWorld [ToggleTask "1"; ToggleDarkMode]).
  { simpl. split_and!; [|tauto|exact I]. vm_compute. discriminate. }
  assert (Hr : rendered freshWorld) by reflexivity.
  assert (Hi : isoDate tomorrow = true) by reflexivity.
  assert (Hd : tomorrow ≠ selectedDate freshWorld) by (vm_compute; discriminate).
  split_and!; [exact Hn | exact Hu | | exact Hr | exact Hi | exact Hd |].
  - exact (proj1 (view_then_fetch tomorrow freshWorld Hn) _ Hu).
  - exact (proj2 (proj2 (proj2 (proj2 (view_then_fetch tomorrow freshWorld Hn) Hr Hi Hd)))).
Defined.

(** C3 as stated fails: after the first render, selecting another date and
    receiving the provider's answer stores a record for that date although no
    mutation operation ran. *)
Lemma view_stores_counterexample :
  records (state freshWorld) !! tomorrow = None ∧
  ∃ r, records (state (run freshWorld [SetSelectedDate tomorrow; QuoteArrives 1 "q"]))
         !! tomorrow = Some r ∧
       customQuote r = Some "q" ∧
       totalPointsEarned r = 0.
Proof.
  split; [reflexivity|]. eexists. split; [vm_compute; reflexivity|]. by split.
Qed.

(** C4: toggling a task id that the record does not contain returns without
    any effect: the whole component state (the records mapping, the current
    record, the task objects) is left as it was. *)
Theorem toggleTask_absent (taskId : string) (w : World) :
  taskId ∉ taskIds (heap w) (currentRecord w) →
  toggleTask taskId w = w.
Proof.
  intros Hn. unfold toggleTask. by rewrite toggleTask_miss.
Qed.

Lemma toggleTask_absent_witness :
  ("7" ∉ taskIds (heap freshWorld) (currentRecord freshWorld)) ∧
  toggleTask "7" freshWorld = freshWorld.
Proof.
  assert (H : "7" ∉ taskIds (heap freshWorld) (currentRecord freshWorld)).
  { rewrite list_elem_of_In. vm_compute. intuition discriminate. }
  split; [exact H | exact (toggleTask_absent "7" freshWorld H)].
Defined.

(** C5, as the code has it: toggling a present task twice restores the task
    objects and leaves the record with the derived fields that [updateRecord]
    computes from them.  So the two totals are back at their values from
    before the toggles whenever they were the two sums (as in a synthesised or
    a committed record), and [reportComment] too whenever it already was the
    computed one, as after any commit. *)
Theorem toggle_twice_derived (taskId : string) (w : World) :
  taskId ∈ taskIds (heap w) (currentRecord w) →
  let w2 := toggleTask taskId (toggleTask taskId w) in
  heap w2 = heap w ∧
  tasks (currentRecord w2) = tasks (currentRecord w) ∧
  records (state w2) !! selectedDate w = Some (currentRecord w2) ∧
  derivedFields (currentRecord w2) = derivedFields (recompute (heap w) (currentRecord w)) ∧
  (totalsAgree (heap w) (currentRecord w) →
   totalPointsEarned (currentRecord w2) = totalPointsEarned (currentRecord w) ∧
   maxPointsPossible (currentRecord w2) = maxPointsPossible (currentRecord w)) ∧
  (committed (heap w) (currentRecord w) →
   derivedFields (currentRecord w2) = derivedFields (currentRecord w)).
Proof.
  intros Hin w2. destruct (toggleTask_twice taskId w Hin) as (Hh & Hc & Hs).
  fold w2 in Hh, Hc, Hs.
  split_and!; [done | by rewrite Hc | done | by rewrite Hc | |].
  - intros [He Hm]. rewrite Hc, recompute_eq. simpl. by rewrite He, Hm.
  - intros Hcom. rewrite Hc. symmetry. exact Hcom.
Qed.

Lemma toggle_twice_derived_witness :
  "2" ∈ taskIds (heap committedWorld) (currentRecord committedWorld) ∧
  totalsAgree (heap committedWorld) (currentRecord committedWorld) ∧
  committed (heap committedWorld) (currentRecord committedWorld) ∧
  totalPointsEarned (currentRecord (toggleTask "2" (toggleTask "2" committedWorld)))
    = totalPointsEarned (currentRecord committedWorld) ∧
  derivedFields (currentRecord (toggleTask "2" (toggleTask "2" committedWorld)))
    = derivedFields (currentRecord committedWorld).
Proof.
  assert (H : "2" ∈ taskIds (heap committedWorld) (currentRecord committedWorld))
    by in_computed_list.
  assert (Ht : totalsAgree (heap committedWorld) (currentRecord committedWorld))
    by (split; vm_compute; reflexivity).
  assert (Hc : committed (heap committedWorld) (currentRecord committedWorld))
    by (vm_compute; reflexivity).
  split_and!; [exact H | exact Ht | exact Hc | |].
  - exact (proj1 (proj1 (proj2 (proj2 (proj2 (proj2
             (toggle_twice_derived "2" committedWorld H))))) Ht)).
  - exact (proj2 (proj2 (proj2 (proj2 (proj2
             (toggle_twice_derived "2" committedWorld H))))) Hc).
Defined.

(** C5 as stated fails on a record that was never committed: the freshly
    synthesised record has no [reportComment], and has one after two toggles. *)
Lemma toggle_twice_fresh_counterexample :
  "1" ∈ taskIds (heap freshWorld) (currentRecord freshWorld) ∧
  reportComment (currentRecord freshWorld) = None ∧
  reportComment (currentRecord (toggleTask "1" (toggleTask "1" freshWorld)))
    = Some EMPTY_CANVAS ∧
  derivedFields (currentRecord (toggleTask "1" (toggleTask "1" freshWorld)))
    ≠ derivedFields (currentRecord freshWorld).
Proof.
  split_and!.
  - in_computed_list.
  - reflexivity.
  - vm_compute. reflexivity.
  - vm_compute. discriminate.
Qed.

(** C6, as the code has it: [avgScore] is 0 for an empty mapping and otherwise
    the arithmetic mean of [totalPointsEarned] over all records rounded to the
    nearest integer, halves upwards ([Math.round]). *)
Theorem avgScore_nearest_mean (s : AppState) :
  (records s = ∅ → avgScore s = 0) ∧
  (records s ≠ ∅ →
     (meanScore (records s) - (1 # 2) < inject_Z (avgScore s))%Q ∧
     (inject_Z (avgScore s) <= meanScore (records s) + (1 # 2))%Q).
Proof.
  rewrite avgScore_eq. split.
  - intros He. apply map_size_empty_iff in He. by rewrite decide_True.
  - intros Hne. apply map_size_non_empty_iff in Hne. rewrite decide_False by done.
    apply Math_round_nearest.
Qed.

Lemma avgScore_nearest_mean_witness :
  records (initialState false) = ∅ ∧
  avgScore (initialState false) = 0 ∧
  records (state twoDays) ≠ ∅ ∧
  (meanScore (records (state twoDays)) - (1 # 2) < inject_Z (avgScore (state twoDays)))%Q ∧
  (inject_Z (avgScore (state twoDays)) <= meanScore (records (state twoDays)) + (1 # 2))%Q.
Proof.
  assert (He : records (initialState false) = ∅) by reflexivity.
  assert (H : records (state twoDays) ≠ ∅).
  { intros Hm. apply map_size_empty_iff in Hm. vm_compute in Hm. discriminate. }
  split_and!; [exact He | | exact H | |].
  - exact (proj1 (avgScore_nearest_mean (initialState false)) He).
  - exact (proj1 (proj2 (avgScore_nearest_mean (state twoDays)) H)).
  - exact (proj2 (proj2 (avgScore_nearest_mean (state twoDays)) H)).
Defined.

(** C6 as stated fails: with 5 points on one day and 10 on another the mean is
    15/2 and [avgScore] is 8. *)
Lemma avgScore_not_mean_counterexample :
  (totalPointsEarned <$> (map_to_list (records (state twoDays))).*2 = [5; 10]) ∧
  avgScore (state twoDays) = 8 ∧
  (meanScore (records (state twoDays)) == 15 # 2)%Q ∧
  ¬ (inject_Z (avgScore (state twoDays)) == meanScore (records (state twoDays)))%Q.
Proof.
  split_and!.
  - vm_compute. reflexivity.
  - vm_compute. reflexivity.
  - vm_compute. reflexivity.
  - vm_compute. discriminate.
Qed.

(** C7, as the code has it: "Define Goal" appends one task instance with
    [completed = false], 10 points and an id that is a function of the random
    draw alone; the ids of the record stay pairwise distinct exactly when they
    were and the drawn id is not among them, which nothing checks. *)
Theorem defineGoal_appends (random36 : string) (w : World) :
  wellFormed (heap w) (currentRecord w) →
  let w' := defineGoal random36 w in
  records (state w') !! selectedDate w = Some (currentRecord w') ∧
  tasksOf (heap w') (tasks (currentRecord w'))
    = tasksOf (heap w) (tasks (currentRecord w)) ++ [newGoal random36] ∧
  (NoDup (taskIds (heap w') (currentRecord w')) ↔
   NoDup (taskIds (heap w) (currentRecord w)) ∧
   String.substring 2 9 random36 ∉ taskIds (heap w) (currentRecord w)).
Proof.
  intros Hwf w'. unfold w', defineGoal.
  set (h := mkHeap _ _). set (rec := withTasks _ _).
  destruct (updateRecord_rendered rec (withHeap h w)) as [Hc Hh]. simpl in Hc, Hh.
  assert (Hts : tasksOf h (tasks rec)
                = tasksOf (heap w) (tasks (currentRecord w)) ++ [newGoal random36]).
  { unfold rec, h. simpl. rewrite tasksOf_app. f_equal.
    - destruct (heap w) as [objs ps]. by apply tasksOf_app_objs.
    - unfold tasksOf. simpl. by rewrite list_lookup_middle. }
  split_and!.
  - rewrite Hc. apply (updateRecord_lookup rec (withHeap h w)).
  - by rewrite Hc, Hh.
  - unfold taskIds. rewrite Hc, Hh.
    change (tasks (recompute h rec)) with (tasks rec). rewrite Hts, fmap_app. simpl.
    rewrite NoDup_app. split.
    + intros (Hnd & Hdisj & _). split; [done|]. intros Hin. apply (Hdisj _ Hin). left.
    + intros [Hnd Hnin]. split_and!; [done | | apply NoDup_singleton].
      intros x Hx Hx'. apply list_elem_of_singleton in Hx'. by subst.
Qed.

Lemma defineGoal_appends_witness :
  wellFormed (heap freshWorld) (currentRecord freshWorld) ∧
  tasksOf (heap (defineGoal "0.k3j9x2m1pqz" freshWorld))
          (tasks (currentRecord (defineGoal "0.k3j9x2m1pqz" freshWorld)))
    = tasksOf (heap freshWorld) (tasks (currentRecord freshWorld))
      ++ [newGoal "0.k3j9x2m1pqz"].
Proof.
  assert (H : wellFormed (heap freshWorld) (currentRecord freshWorld)).
  { unfold wellFormed. apply (bool_decide_unpack _). vm_compute. exact I. }
  split; [exact H|].
  exact (proj1 (proj2 (defineGoal_appends "0.k3j9x2m1pqz" freshWorld H))).
Defined.

(** C7 as stated fails: two draws that agree on their first nine digits give
    the same id, so the second new task gets an id the record already has. *)
Lemma defineGoal_collision_counterexample :
  id (newGoal "0.k3j9x2m1pab") = "k3j9x2m1p" ∧
  "k3j9x2m1p" ∈ taskIds (heap oneGoal) (currentRecord oneGoal) ∧
  ¬ NoDup (taskIds (heap (defineGoal "0.k3j9x2m1pab" oneGoal))
                   (currentRecord (defineGoal "0.k3j9x2m1pab" oneGoal))).
Proof.
  split_and!.
  - reflexivity.
  - in_computed_list.
  - intros H. apply NoDup_ListNoDup in H. vm_compute in H.
    repeat match goal with H : List.NoDup (_ :: _) |- _ => inversion_clear H end.
    match goal with H : ¬ In _ [_] |- _ => apply H; left; reflexivity end.
Qed.

(** C8: the confirmed reset empties the records mapping and zeroes
    [totalPoints] and [streak] in one state update, leaving the rest of the
    state alone; afterwards every date is shown as the record synthesised from
    the templates.  A declined confirmation changes nothing. *)
Theorem clearAllRecords_resets (w : World) :
  let w' := clearAllRecords true w in
  records (state w') = ∅ ∧
  UserProfile.totalPoints (profile (state w')) = 0 ∧
  UserProfile.streak (profile (state w')) = 0 ∧
  UserProfile.name (profile (state w')) = UserProfile.name (profile (state w)) ∧
  UserProfile.avatar (profile (state w')) = UserProfile.avatar (profile (state w)) ∧
  templates (state w') = templates (state w) ∧
  darkMode (state w') = darkMode (state w) ∧
  (∀ d, records (state (setSelectedDate d w')) = ∅ ∧
        isTemplateRecord (heap (setSelectedDate d w')) (state w') d
                         (currentRecord (setSelectedDate d w'))) ∧
  clearAllRecords false w = w.
Proof.
  intros w'. unfold w', clearAllRecords.
  set (f := λ prev : AppState, mkState _ _ _ _).
  assert (Hs : state (setState f true w) = f (state w)) by apply setState_state.
  rewrite Hs. simpl. split_and!; try done.
  intros d. rewrite setSelectedDate_state, Hs. split; [done|].
  destruct (decide (d = selectedDate (setState f true w))) as [->|Hd].
  - unfold setSelectedDate. rewrite decide_True by done.
    rewrite setState_selectedDate. by apply setState_fresh.
  - rewrite <- Hs. apply setSelectedDate_fresh; [done|]. by rewrite Hs.
Qed.

(** C9 fails on the code: a quote typed by the user while the fetch is pending
    is replaced by the provider's answer when it arrives. *)
Theorem late_quote_overwrites :
  customQuote <$> records (state (editQuote "mine" freshWorld)) !! today
    = Some (Some "mine") ∧
  fetchDate <$> pending (editQuote "mine" freshWorld) !! 0%nat = Some today ∧
  customQuote <$> records (state (quoteArrives 0 "late" (editQuote "mine" freshWorld))) !! today
    = Some (Some "late").
Proof. split_and!; vm_compute; reflexivity. Qed.

(** The same late answer also puts back the totals of the record captured by
    the closure, while its task objects carry the toggles made since. *)
Lemma late_quote_reverts_totals :
  ∃ r, records (state (quoteArrives 0 "late" (toggleTask "2" freshWorld))) !! today = Some r ∧
       totalPointsEarned r = 0 ∧
       earnedPoints (tasksOf (heap (quoteArrives 0 "late" (toggleTask "2" freshWorld)))
                             (tasks r)) = 20.
Proof. eexists. split_and!; vm_compute; reflexivity. Qed.

(** C10: [updateRecord] rewrites only [totalPointsEarned],
    [maxPointsPossible] and [reportComment]: the committed record has the
    [date], [customQuote], [prayers] and [tasks] of its argument, the task and
    prayer objects are untouched, and so is every record stored under another
    date. *)
Theorem updateRecord_frame (record : DailyRecord) (w : World) :
  ∃ r, records (state (updateRecord record w)) !! selectedDate w = Some r ∧
       date r = date record ∧
       customQuote r = customQuote record ∧
       prayers r = prayers record ∧
       tasks r = tasks record ∧
       heap (updateRecord record w) = heap w ∧
       ∀ d, d ≠ selectedDate w →
            records (state (updateRecord record w)) !! d = records (state w) !! d.
Proof.
  exists (recompute (heap w) record).
  repeat split; try done.
  - apply updateRecord_lookup.
  - apply updateRecord_rendered.
  - intros d Hd. by apply updateRecord_lookup_ne.
Qed.
(** * Further properties of the handlers and of the views *)

(** ** Reading task arrays *)

Lemma tasksOf_cons h l ls :
  tasksOf h (l :: ls)
  = match taskObjs h !! l with Some t => t :: tasksOf h ls | None => tasksOf h ls end.
Proof. reflexivity. Qed.

Lemma tasksOf_lookup h ls k :
  Forall (λ l, is_Some (taskObjs h !! l)) ls →
  tasksOf h ls !! k = ls !! k ≫= (λ l, taskObjs h !! l).
Proof.
  intros Hv. revert k.
  induction Hv as [|l ls [t Ht] _ IH]; intros k; [done|].
  rewrite tasksOf_cons, Ht. destruct k as [|k]; simpl; [by symmetry|apply IH].
Qed.

Lemma tasksOf_length h ls :
  Forall (λ l, is_Some (taskObjs h !! l)) ls → length (tasksOf h ls) = length ls.
Proof.
  induction 1 as [|l ls [t Ht] _ IH]; [done|].
  rewrite tasksOf_cons, Ht. simpl. by rewrite IH.
Qed.

Lemma tasksOf_filter_hasId h taskId ls :
  tasksOf h (filter (λ l, ¬ hasId h taskId l) ls)
  = filter (λ t : TaskInstance, id t ≠ taskId) (tasksOf h ls).
Proof.
  induction ls as [|l ls IH]; [done|].
  rewrite filter_cons, tasksOf_cons.
  destruct (taskObjs h !! l) as [t|] eqn:Ht.
  - assert (hasId h taskId l ↔ id t = taskId) as Hid.
    { unfold hasId. rewrite Ht. simpl. split; congruence. }
    rewrite filter_cons. destruct (decide (id t = taskId)) as [He|He].
    + rewrite decide_False by tauto. rewrite decide_False by tauto. done.
    + rewrite decide_True by tauto. rewrite decide_True by tauto.
      rewrite tasksOf_cons, Ht. by rewrite IH.
  - rewrite decide_True by (unfold hasId; rewrite Ht; done).
    rewrite tasksOf_cons, Ht. done.
Qed.

Lemma possiblePoints_split (P : TaskInstance → Prop) `{∀ t, Decision (P t)} ts :
  possiblePoints ts = possiblePoints (filter P ts) + possiblePoints (filter (λ t, ¬ P t) ts).
Proof.
  unfold possiblePoints. induction ts as [|t ts IH]; [done|].
  rewrite !filter_cons, fmap_cons, sumZ_cons, IH.
  destruct (decide (P t)).
  - rewrite decide_False by tauto. rewrite fmap_cons, sumZ_cons. lia.
  - rewrite decide_True by tauto. rewrite fmap_cons, sumZ_cons. lia.
Qed.

Lemma earnedPoints_split (P : TaskInstance → Prop) `{∀ t, Decision (P t)} ts :
  earnedPoints ts = earnedPoints (filter P ts) + earnedPoints (filter (λ t, ¬ P t) ts).
Proof.
  unfold earnedPoints. induction ts as [|t ts IH]; [done|].
  rewrite !(filter_cons _ t ts). destruct (decide (completed t = true)) as [Hc|Hc].
  - rewrite fmap_cons, sumZ_cons, IH. destruct (decide (P t)).
    + rewrite decide_False by tauto.
      rewrite (filter_cons _ t), decide_True by done. rewrite fmap_cons, sumZ_cons. lia.
    + rewrite decide_True by tauto.
      rewrite (filter_cons _ t (filter (λ t, ¬ P t) ts)), decide_True by done.
      rewrite fmap_cons, sumZ_cons. lia.
  - rewrite IH. destruct (decide (P t)).
    + rewrite decide_False by tauto.
      rewrite (filter_cons _ t), decide_False by done. lia.
    + rewrite decide_True by tauto.
      rewrite (filter_cons _ t (filter (λ t, ¬ P t) ts)), decide_False by done. lia.
Qed.

(** ** Deleting a task *)

(** X1: [deleteTaskInstance] removes every task that carries the id and keeps
    the others in their order; it touches no object, stores the record, and
    the two totals drop by the points of the removed tasks. *)
Theorem deleteTaskInstance_removes (taskId : string) (w : World) :
  let w' := deleteTaskInstance taskId w in
  let old := tasksOf (heap w) (tasks (currentRecord w)) in
  records (state w') !! selectedDate w = Some (currentRecord w') ∧
  heap w' = heap w ∧
  tasksOf (heap w') (tasks (currentRecord w'))
    = filter (λ t : TaskInstance, id t ≠ taskId) old ∧
  (taskId ∉ taskIds (heap w') (currentRecord w')) ∧
  maxPointsPossible (currentRecord w')
    = possiblePoints old - possiblePoints (withId taskId old) ∧
  totalPointsEarned (currentRecord w')
    = earnedPoints old - earnedPoints (withId taskId old).
Proof.
  intros w' old. unfold w', deleteTaskInstance.
  destruct (updateRecord_rendered
              (withTasks (filter (λ l, ¬ hasId (heap w) taskId l) (tasks (currentRecord w)))
                         (currentRecord w)) w) as [Hc Hh].
  rewrite updateRecord_lookup, Hc, Hh, recompute_eq. simpl.
  rewrite tasksOf_filter_hasId. fold old.
  split_and!; try done.
  - unfold taskIds. simpl. rewrite tasksOf_filter_hasId. fold old.
    intros Hin. apply list_elem_of_fmap in Hin as (t & -> & Ht).
    apply list_elem_of_filter in Ht as [Ht _]. by apply Ht.
  - rewrite (possiblePoints_split (λ t : TaskInstance, id t = taskId) old).
    unfold withId. lia.
  - rewrite (earnedPoints_split (λ t : TaskInstance, id t = taskId) old).
    unfold withId. lia.
Qed.

Lemma filter_Forall_id {A} (P : A → Prop) `{∀ x, Decision (P x)} (l : list A) :
  Forall P l → filter P l = l.
Proof.
  induction 1 as [|x l Hx _ IH]; [done|].
  rewrite filter_cons, decide_True by done. by rewrite IH.
Qed.

Lemma withTasks_same r : withTasks (tasks r) r = r.
Proof. by destruct r. Qed.

(** X2: deleting an id that the record does not contain removes nothing, but
    is a commit all the same: the record on display becomes a stored record
    with recomputed derived fields (where [toggleTask] returns early). *)
Theorem deleteTaskInstance_absent (taskId : string) (w : World) :
  taskId ∉ taskIds (heap w) (currentRecord w) →
  let w' := deleteTaskInstance taskId w in
  currentRecord w' = recompute (heap w) (currentRecord w) ∧
  records (state w') !! selectedDate w = Some (currentRecord w') ∧
  heap w' = heap w.
Proof.
  intros Hnot w'. unfold w', deleteTaskInstance.
  rewrite filter_Forall_id, withTasks_same.
  - destruct (updateRecord_rendered (currentRecord w) w) as [Hc Hh].
    by rewrite updateRecord_lookup, Hc, Hh.
  - apply Forall_forall. intros l Hl Hid. apply Hnot, taskIds_hasId. eauto.
Qed.

Lemma deleteTaskInstance_absent_witness :
  ("7" ∉ taskIds (heap freshWorld) (currentRecord freshWorld)) ∧
  records (state freshWorld) !! selectedDate freshWorld = None ∧
  records (state (deleteTaskInstance "7" freshWorld)) !! selectedDate freshWorld
    = Some (recompute (heap freshWorld) (currentRecord freshWorld)).
Proof.
  assert (Hnot : "7" ∉ taskIds (heap freshWorld) (currentRecord freshWorld)).
  { vm_compute. intros Hin. repeat (apply elem_of_cons in Hin as [Hin|Hin]; [discriminate|]).
    by apply elem_of_nil in Hin. }
  split; [exact Hnot|]. split; [reflexivity|].
  destruct (deleteTaskInstance_absent "7" freshWorld Hnot) as (Hc & Hl & _).
  by rewrite Hl, Hc.
Defined.

(** ** Editing a task *)

Lemma mapTasks_values taskId u ps ls : ∀ objs ls' objs',
  mapTasks taskId u objs ls = (ls', objs') →
  Forall (λ l, is_Some (objs !! l)) ls →
  tasksOf (mkHeap objs' ps) ls' = updated taskId u <$> tasksOf (mkHeap objs ps) ls.
Proof.
  induction ls as [|l ls IH]; intros objs ls' objs' Hmap Hwf; simpl in Hmap.
  - by injection Hmap as <- <-.
  - apply Forall_cons in Hwf as [[t Ht] Hwf]. rewrite Ht in Hmap.
    rewrite (tasksOf_cons (mkHeap objs ps)). simpl. rewrite Ht, fmap_cons.
    unfold updated at 1.
    destruct (decide (id t = taskId)) as [Hid|Hid].
    + destruct (mapTasks taskId u (objs ++ [merge t u]) ls) as [ls1 objs1] eqn:Hrec.
      injection Hmap as <- <-.
      assert (Hwf' : Forall (λ l, is_Some ((objs ++ [merge t u]) !! l)) ls).
      { eapply Forall_impl; [exact Hwf|]. intros l' [t' Hl']. exists t'.
        by apply lookup_app_l_Some. }
      destruct (mapTasks_spec _ _ _ _ _ _ Hrec Hwf') as ([new Hnew] & _ & _).
      rewrite tasksOf_cons. simpl.
      rewrite Hnew at 1. rewrite <- app_assoc. simpl.
      rewrite list_lookup_middle by done.
      rewrite (IH _ _ _ Hrec Hwf'). f_equal. f_equal.
      by apply tasksOf_app_objs.
    + destruct (mapTasks taskId u objs ls) as [ls1 objs1] eqn:Hrec.
      injection Hmap as <- <-.
      destruct (mapTasks_spec _ _ _ _ _ _ Hrec Hwf) as ([new Hnew] & _ & _).
      rewrite tasksOf_cons. simpl.
      rewrite Hnew at 1. rewrite (lookup_app_l_Some _ _ _ _ Ht).
      by rewrite (IH _ _ _ Hrec Hwf).
Qed.

(** X3: [updateTaskInstance] replaces every task that carries the id by its
    merge with the updates and leaves the others, in their order; the
    replacements are new objects, so no existing object changes. *)
Theorem updateTaskInstance_maps (taskId : string) (updates : TaskUpdates) (w : World) :
  wellFormed (heap w) (currentRecord w) →
  let w' := updateTaskInstance taskId updates w in
  let new := updated taskId updates <$> tasksOf (heap w) (tasks (currentRecord w)) in
  records (state w') !! selectedDate w = Some (currentRecord w') ∧
  tasksOf (heap w') (tasks (currentRecord w')) = new ∧
  totalPointsEarned (currentRecord w') = earnedPoints new ∧
  maxPointsPossible (currentRecord w') = possiblePoints new ∧
  (∃ objs, taskObjs (heap w') = taskObjs (heap w) ++ objs) ∧
  prayerObjs (heap w') = prayerObjs (heap w).
Proof.
  intros Hwf w' new. unfold w', updateTaskInstance.
  destruct (mapTasks _ _ _ _) as [ls objs] eqn:Hmap.
  destruct (mapTasks_spec _ _ _ _ _ _ Hmap Hwf) as (Hnew & _ & _).
  assert (Hval := mapTasks_values _ _ (prayerObjs (heap w)) _ _ _ _ Hmap Hwf).
  destruct (updateRecord_rendered (withTasks ls (currentRecord w))
              (withHeap (mkHeap objs (prayerObjs (heap w))) w)) as [Hc Hh].
  rewrite Hc, Hh.
  change (selectedDate w)
    with (selectedDate (withHeap (mkHeap objs (prayerObjs (heap w))) w)) at 1.
  rewrite updateRecord_lookup, recompute_eq. simpl.
  assert (Hold : tasksOf (mkHeap (taskObjs (heap w)) (prayerObjs (heap w)))
                         (tasks (currentRecord w))
                 = tasksOf (heap w) (tasks (currentRecord w))) by by destruct (heap w).
  rewrite Hval, Hold. fold new. done.
Qed.

Lemma updateTaskInstance_maps_witness :
  wellFormed (heap freshWorld) (currentRecord freshWorld) ∧
  maxPointsPossible
    (currentRecord (updateTaskInstance "2" (mkUpdates None None (Some 50) None) freshWorld))
  = possiblePoints (updated "2" (mkUpdates None None (Some 50) None)
                      <$> tasksOf (heap freshWorld) (tasks (currentRecord freshWorld))).
Proof.
  assert (Hwf : wellFormed (heap freshWorld) (currentRecord freshWorld)).
  { unfold wellFormed. vm_compute. repeat constructor; by eexists. }
  split; [exact Hwf|].
  apply (updateTaskInstance_maps "2" (mkUpdates None None (Some 50) None) freshWorld Hwf).
Defined.

(** ** Toggling a prayer *)

Lemma getPrayer_flipPrayer (p q : PrayerName) (x : Prayers) :
  getPrayer q (flipPrayer p x)
  = if decide (q = p) then negb (getPrayer q x) else getPrayer q x.
Proof. by destruct p, q. Qed.

Lemma togglePrayer_rendered prayer w :
  let pl := match prayers (currentRecord w) with
            | Some pl => pl
            | None => length (prayerObjs (heap w))
            end in
  let objs := match prayers (currentRecord w) with
              | Some _ => prayerObjs (heap w)
              | None => prayerObjs (heap w) ++ [noPrayers]
              end in
  let h := mkHeap (taskObjs (heap w)) (alter (flipPrayer prayer) pl objs) in
  currentRecord (togglePrayer prayer w)
    = recompute h (withPrayers (Some pl) (currentRecord w)) ∧
  heap (togglePrayer prayer w) = h ∧
  records (state (togglePrayer prayer w)) !! selectedDate w
    = Some (currentRecord (togglePrayer prayer w)).
Proof.
  unfold togglePrayer.
  destruct (prayers (currentRecord w)) as [pl|]; simpl;
    match goal with |- context [updateRecord ?r ?w1] =>
      destruct (updateRecord_rendered r w1) as [Hc Hh];
      rewrite Hc, Hh; split_and!; [done|done|];
      change (selectedDate w) with (selectedDate w1);
      by rewrite updateRecord_lookup
    end.
Qed.

Lemma togglePrayer_shown (prayer : PrayerName) (w : World) :
  prayersValid (heap w) (currentRecord w) →
  let w' := togglePrayer prayer w in
  prayersValid (heap w') (currentRecord w') ∧
  ∀ q, prayerShown (heap w') (currentRecord w') q
       = (if decide (q = prayer) then negb (prayerShown (heap w) (currentRecord w) q)
          else prayerShown (heap w) (currentRecord w) q).
Proof.
  intros Hv w'. destruct (togglePrayer_rendered prayer w) as (Hc & Hh & _).
  fold w' in Hc, Hh. rewrite Hc, Hh. clear Hc Hh.
  unfold prayerShown, prayersValid in *. rewrite recompute_eq. simpl.
  destruct (prayers (currentRecord w)) as [pl|];
    cbn [mbind option_bind]; rewrite list_lookup_alter_eq.
  - destruct Hv as [x Hx]. change (@lookup loc) with (@lookup nat) in *.
    rewrite Hx. cbn [fmap option_fmap option_map].
    split; [by eexists|]. intros q. apply getPrayer_flipPrayer.
  - rewrite list_lookup_middle by done. cbn [fmap option_fmap option_map].
    split; [by eexists|]. intros q. rewrite getPrayer_flipPrayer. by destruct q.
Qed.

(** X4: [togglePrayer] negates the flag of its prayer and leaves the four
    other flags as they were shown; a record without prayers object gets one
    first, with the five flags off.  The tasks are untouched. *)
Theorem togglePrayer_flips (prayer q : PrayerName) (w : World) :
  prayersValid (heap w) (currentRecord w) →
  let w' := togglePrayer prayer w in
  records (state w') !! selectedDate w = Some (currentRecord w') ∧
  prayerShown (heap w') (currentRecord w') q
    = (if decide (q = prayer) then negb (prayerShown (heap w) (currentRecord w) q)
       else prayerShown (heap w) (currentRecord w) q) ∧
  prayersValid (heap w') (currentRecord w') ∧
  tasks (currentRecord w') = tasks (currentRecord w) ∧
  taskObjs (heap w') = taskObjs (heap w).
Proof.
  intros Hv w'. destruct (togglePrayer_shown prayer w Hv) as [Hv' Hq].
  destruct (togglePrayer_rendered prayer w) as (Hc & Hh & Hl).
  fold w' in Hc, Hh, Hl, Hv', Hq.
  split_and!; [done | apply Hq | done | |].
  - by rewrite Hc, recompute_eq.
  - by rewrite Hh.
Qed.

Lemma togglePrayer_flips_witness :
  prayersValid (heap freshWorld) (currentRecord freshWorld) ∧
  prayerShown (heap freshWorld) (currentRecord freshWorld) Asr = false ∧
  prayerShown (heap (togglePrayer Asr freshWorld))
              (currentRecord (togglePrayer Asr freshWorld)) Asr = true.
Proof.
  assert (Hv : prayersValid (heap freshWorld) (currentRecord freshWorld)).
  { vm_compute. by eexists. }
  split; [exact Hv|]. split; [reflexivity|].
  destruct (togglePrayer_flips Asr Asr freshWorld Hv) as (_ & Hs & _).
  rewrite Hs. reflexivity.
Defined.

(** X5: toggling the same prayer twice shows the five flags as before, and
    leaves the record with the derived fields that [updateRecord] computes
    for it. *)
Theorem togglePrayer_twice (prayer : PrayerName) (w : World) :
  prayersValid (heap w) (currentRecord w) →
  let w2 := togglePrayer prayer (togglePrayer prayer w) in
  (∀ q, prayerShown (heap w2) (currentRecord w2) q
        = prayerShown (heap w) (currentRecord w) q) ∧
  tasks (currentRecord w2) = tasks (currentRecord w) ∧
  taskObjs (heap w2) = taskObjs (heap w) ∧
  derivedFields (currentRecord w2) = derivedFields (recompute (heap w) (currentRecord w)).
Proof.
  intros Hv w2.
  destruct (togglePrayer_shown prayer w Hv) as [Hv1 H1].
  destruct (togglePrayer_shown prayer (togglePrayer prayer w) Hv1) as [_ H2].
  destruct (togglePrayer_rendered prayer w) as (Hc1 & Hh1 & _).
  destruct (togglePrayer_rendered prayer (togglePrayer prayer w)) as (Hc2 & Hh2 & _).
  fold w2 in H2, Hc2, Hh2.
  assert (Ht1 : tasks (currentRecord (togglePrayer prayer w)) = tasks (currentRecord w))
    by (by rewrite Hc1, recompute_eq).
  assert (Ho1 : taskObjs (heap (togglePrayer prayer w)) = taskObjs (heap w))
    by (by rewrite Hh1).
  split_and!.
  - intros q. rewrite H2, H1. case_decide; [apply negb_involutive | done].
  - by rewrite Hc2, recompute_eq.
  - by rewrite Hh2.
  - rewrite Hc2, !recompute_eq. simpl. unfold derivedFields. simpl.
    rewrite Ht1.
    rewrite (tasksOf_agree (heap w)); [done|]. intros l _. simpl. by rewrite Ho1.
Qed.

Lemma togglePrayer_twice_witness :
  prayersValid (heap freshWorld) (currentRecord freshWorld) ∧
  ∀ q, prayerShown (heap (togglePrayer Fajr (togglePrayer Fajr freshWorld)))
                   (currentRecord (togglePrayer Fajr (togglePrayer Fajr freshWorld))) q
       = prayerShown (heap freshWorld) (currentRecord freshWorld) q.
Proof.
  assert (Hv : prayersValid (heap freshWorld) (currentRecord freshWorld)).
  { vm_compute. by eexists. }
  split; [exact Hv|]. apply (togglePrayer_twice Fajr freshWorld Hv).
Defined.

(** ** Toggling a task *)

Lemma earnedPoints_cons (t : TaskInstance) ts :
  earnedPoints (t :: ts) = (if completed t then points t else 0) + earnedPoints ts.
Proof.
  unfold earnedPoints. rewrite filter_cons.
  destruct (completed t); [rewrite decide_True by done | rewrite decide_False by done].
  - by rewrite fmap_cons, sumZ_cons.
  - done.
Qed.

Lemma possiblePoints_cons (t : TaskInstance) ts :
  possiblePoints (t :: ts) = points t + possiblePoints ts.
Proof. unfold possiblePoints. by rewrite fmap_cons, sumZ_cons. Qed.

Lemma points_insert_flip (ts : list TaskInstance) : ∀ i t,
  ts !! i = Some t →
  possiblePoints (<[i := flipCompleted t]> ts) = possiblePoints ts ∧
  earnedPoints (<[i := flipCompleted t]> ts)
    = earnedPoints ts + (if completed t then - points t else points t).
Proof.
  induction ts as [|t0 ts IH]; intros i t Hi; [done|].
  destruct i as [|i]; simpl in *.
  - injection Hi as ->. rewrite !earnedPoints_cons, !possiblePoints_cons. simpl.
    destruct (completed t); simpl; lia.
  - destruct (IH _ _ Hi) as [Hp He].
    rewrite !earnedPoints_cons, !possiblePoints_cons, Hp, He. lia.
Qed.

(** X6: [toggleTask] flips the first task that carries the id, and only that
    one even when the id occurs again; [maxPointsPossible] stays the sum of
    all points and [totalPointsEarned] moves by the points of that task, up
    when it was open and down when it was completed.  (The record holds each
    task object once.) *)
Theorem toggleTask_first (taskId : string) (w : World) :
  wellFormed (heap w) (currentRecord w) →
  NoDup (tasks (currentRecord w)) →
  taskId ∈ taskIds (heap w) (currentRecord w) →
  let w' := toggleTask taskId w in
  let old := tasksOf (heap w) (tasks (currentRecord w)) in
  ∃ i t, list_find (λ t : TaskInstance, id t = taskId) old = Some (i, t) ∧
         tasksOf (heap w') (tasks (currentRecord w')) = <[i := flipCompleted t]> old ∧
         maxPointsPossible (currentRecord w') = possiblePoints old ∧
         totalPointsEarned (currentRecord w')
           = earnedPoints old + (if completed t then - points t else points t).
Proof.
  intros Hwf Hnd Hin w' old.
  destruct (toggleTask_hit _ _ Hin) as (i & l & Hfind & Hid).
  unfold w', toggleTask. rewrite Hfind.
  apply list_find_Some in Hfind as (Hi & _ & Hfirst).
  unfold hasId in Hid. destruct (taskObjs (heap w) !! l) as [t|] eqn:Ht; [|done].
  simpl in Hid. injection Hid as Hid.
  assert (Hold : old !! i = Some t).
  { unfold old. rewrite tasksOf_lookup by done. unfold loc in *. rewrite Hi. exact Ht. }
  exists i, t.
  set (h' := mkHeap (alter flipCompleted l (taskObjs (heap w))) (prayerObjs (heap w))).
  destruct (updateRecord_rendered (currentRecord w) (withHeap h' w)) as [Hc Hh].
  rewrite Hc, Hh, recompute_eq. simpl.
  assert (Hnew : tasksOf h' (tasks (currentRecord w)) = <[i := flipCompleted t]> old).
  { apply list_eq. intros k. rewrite tasksOf_lookup.
    2:{ eapply Forall_impl; [exact Hwf|]. intros l' Hl'. simpl.
        apply lookup_lt_is_Some. rewrite length_alter. by apply lookup_lt_is_Some. }
    destruct (decide (k = i)) as [->|Hk].
    - rewrite list_lookup_insert_eq by (by eapply lookup_lt_Some).
      unfold loc in *. rewrite Hi. simpl. by rewrite list_lookup_alter_eq, Ht.
    - rewrite list_lookup_insert_ne by done. unfold old.
      rewrite tasksOf_lookup by done. unfold loc in *.
      destruct (_ !! k) as [l'|] eqn:Hk'; [|done]. simpl.
      apply list_lookup_alter_ne. intros ->. apply Hk.
      by apply (NoDup_lookup _ _ _ _ Hnd Hk' Hi). }
  rewrite Hnew. destruct (points_insert_flip old i t Hold) as [Hp He].
  split_and!; [|done|done|done].
  apply list_find_Some. split_and!; [done|done|].
  intros j y Hj Hlt. unfold old in Hj. rewrite tasksOf_lookup in Hj by done.
  unfold loc in *.
  destruct (_ !! j) as [l'|] eqn:Hj' in Hj; [|done]. simpl in Hj.
  intros Hy. apply (Hfirst j l' Hj' Hlt). unfold hasId, loc.
  rewrite Hj. simpl. by rewrite Hy.
Qed.

Lemma toggleTask_first_witness :
  wellFormed (heap freshWorld) (currentRecord freshWorld) ∧
  NoDup (tasks (currentRecord freshWorld)) ∧
  "2" ∈ taskIds (heap freshWorld) (currentRecord freshWorld) ∧
  ∃ i t, list_find (λ t : TaskInstance, id t = "2")
           (tasksOf (heap freshWorld) (tasks (currentRecord freshWorld))) = Some (i, t) ∧
         totalPointsEarned (currentRecord (toggleTask "2" freshWorld))
           = earnedPoints (tasksOf (heap freshWorld) (tasks (currentRecord freshWorld)))
             + (if completed t then - points t else points t).
Proof.
  assert (Hwf : wellFormed (heap freshWorld) (currentRecord freshWorld)).
  { unfold wellFormed. vm_compute. repeat constructor; by eexists. }
  assert (Hnd : NoDup (tasks (currentRecord freshWorld))).
  { apply (bool_decide_unpack _). vm_compute. exact I. }
  assert (Hin : "2" ∈ taskIds (heap freshWorld) (currentRecord freshWorld)).
  { vm_compute. apply elem_of_cons. right. apply elem_of_cons. by left. }
  split; [exact Hwf|]. split; [exact Hnd|]. split; [exact Hin|].
  destruct (toggleTask_first "2" freshWorld Hwf Hnd Hin) as (i & t & Hf & _ & _ & He).
  by exists i, t.
Defined.

(** ** [stats] *)

Lemma elem_of_values (m : gmap string DailyRecord) r :
  r ∈ (map_to_list m).*2 ↔ ∃ d, m !! d = Some r.
Proof.
  rewrite list_elem_of_fmap. split.
  - intros ([d r'] & -> & Hin). exists d. by apply elem_of_map_to_list.
  - intros [d Hd]. exists (d, r). split; [done|]. by apply elem_of_map_to_list.
Qed.

Lemma elem_of_allRecords s r : r ∈ allRecords s ↔ ∃ d, records s !! d = Some r.
Proof. by rewrite allRecords_Permutation, elem_of_values. Qed.

Lemma size_values (m : gmap string DailyRecord) : length ((map_to_list m).*2) = size m.
Proof. by rewrite length_fmap, length_map_to_list. Qed.

Lemma Math_max_spec l :
  l ≠ [] → ∃ m, Math_max l = Num m ∧ m ∈ l ∧ Forall (λ x, x ≤ m) l.
Proof.
  induction l as [|x l IH]; [done|]. intros _.
  destruct l as [|y l].
  - exists x. split_and!; [done | by left | by repeat constructor].
  - destruct IH as (m & Hm & Hin & Hle); [done|].
    exists (Z.max x m). split_and!.
    + change (Math_max (x :: y :: l))
        with (match Math_max (y :: l) with
              | MinusInfinity => Num x
              | Num y => Num (Z.max x y)
              end).
      by rewrite Hm.
    + destruct (Z.max_spec x m) as [[_ ->]|[_ ->]]; [by right | by left].
    + constructor; [lia|]. eapply Forall_impl; [exact Hle|]. simpl. lia.
Qed.

Lemma highestScore_nonempty s :
  records s ≠ ∅ →
  ∃ m, highestScore s = Num m ∧ m ∈ totalPointsEarned <$> allRecords s ∧
       Forall (λ x, x ≤ m) (totalPointsEarned <$> allRecords s).
Proof.
  intros Hne. unfold highestScore. rewrite allRecords_length.
  rewrite decide_False by (by rewrite map_size_empty_iff).
  assert ((λ r, orZ (totalPointsEarned r) 0) <$> allRecords s
          = totalPointsEarned <$> allRecords s) as ->.
  { apply list_fmap_ext. intros _ r _. apply orZ_0. }
  apply Math_max_spec. intros Hnil. apply fmap_nil_inv in Hnil.
  apply Hne, map_size_empty_iff. by rewrite <- allRecords_length, Hnil.
Qed.

(** X7: [highestScore] is 0 without records, and otherwise the largest
    [totalPointsEarned] among the records: some record has it and no record
    exceeds it. *)
Theorem highestScore_max (s : AppState) :
  (records s = ∅ → highestScore s = Num 0) ∧
  (records s ≠ ∅ →
     ∃ m, highestScore s = Num m ∧
          (∃ d r, records s !! d = Some r ∧ totalPointsEarned r = m) ∧
          (∀ d r, records s !! d = Some r → totalPointsEarned r ≤ m)).
Proof.
  split.
  - intros He. unfold highestScore. rewrite allRecords_length, He.
    by rewrite decide_True by done.
  - intros Hne. destruct (highestScore_nonempty s Hne) as (m & Hm & Hin & Hle).
    exists m. split; [done|]. split.
    + apply list_elem_of_fmap in Hin as (r & -> & Hr).
      apply elem_of_allRecords in Hr as [d Hd]. by exists d, r.
    + intros d r Hd. rewrite Forall_fmap, Forall_forall in Hle.
      apply (Hle r), elem_of_allRecords. by exists d.
Qed.

Lemma highestScore_max_witness :
  records (state twoDays) ≠ ∅ ∧
  ∃ m, highestScore (state twoDays) = Num m ∧
       (∃ d r, records (state twoDays) !! d = Some r ∧ totalPointsEarned r = m) ∧
       (∀ d r, records (state twoDays) !! d = Some r → totalPointsEarned r ≤ m).
Proof.
  assert (Hne : records (state twoDays) ≠ ∅).
  { intros He. apply (f_equal size) in He. vm_compute in He. discriminate. }
  split; [exact Hne|]. exact (proj2 (highestScore_max (state twoDays)) Hne).
Defined.

Lemma sumZ_le_max (l : list Z) m :
  Forall (λ x, x ≤ m) l → sumZ l ≤ Z.of_nat (length l) * m.
Proof.
  induction 1 as [|x l Hx _ IH]; [done|].
  rewrite sumZ_cons. simpl length. lia.
Qed.

Lemma Math_round_le x m : (x <= inject_Z m)%Q → Math_round x ≤ m.
Proof.
  intros Hx. destruct (Math_round_nearest x) as [_ Hr].
  destruct (Z_le_gt_dec (Math_round x) m) as [|Hgt]; [done|].
  assert (inject_Z (m + 1) <= inject_Z (Math_round x))%Q as Hm
    by (rewrite <- Zle_Qle; lia).
  rewrite inject_Z_plus in Hm. change (inject_Z 1) with 1%Q in Hm.
  revert Hr Hm. generalize (inject_Z (Math_round x)). intros q Hr Hm. lra.
Qed.

(** X8: the rounded average never exceeds the highest score. *)
Theorem avgScore_le_highestScore (s : AppState) :
  ∃ m, highestScore s = Num m ∧ avgScore s ≤ m.
Proof.
  rewrite avgScore_eq.
  destruct (decide (size (records s) = 0%nat)) as [Hz|Hz].
  - exists 0. split; [|done]. unfold highestScore.
    by rewrite allRecords_length, decide_True by done.
  - destruct (highestScore_nonempty s) as (m & Hm & _ & Hle).
    { by rewrite <- map_size_empty_iff. }
    exists m. split; [done|]. apply Math_round_le. unfold meanScore.
    apply Qle_shift_div_r.
    + change 0%Q with (inject_Z 0). rewrite <- Zlt_Qlt. lia.
    + rewrite <- inject_Z_mult, <- Zle_Qle, <- size_values, Z.mul_comm.
      rewrite <- (length_fmap totalPointsEarned).
      apply sumZ_le_max. rewrite Forall_fmap, Forall_forall.
      intros r Hr. simpl. rewrite Forall_fmap, Forall_forall in Hle.
      apply (Hle r), elem_of_allRecords. by apply elem_of_values.
Qed.

(** ** The analytics cards *)

Lemma earned_eq_possible (ts : list TaskInstance) :
  Forall (λ t : TaskInstance, 0 ≤ points t) ts →
  earnedPoints ts = possiblePoints ts ↔ allDone ts.
Proof.
  unfold allDone. induction 1 as [|t ts Ht Hts IH]; [done|].
  rewrite earnedPoints_cons, possiblePoints_cons, Forall_cons, <- IH.
  destruct (earned_le_possible ts Hts) as [_ Hle].
  destruct (completed t); [|lia].
  split; [intros ?; split; [by left | lia] | lia].
Qed.

Lemma isMilestone_iff h r :
  totalsAgree h r →
  Forall (λ t : TaskInstance, 0 ≤ points t) (tasksOf h (tasks r)) →
  isMilestone r = true ↔
  allDone (tasksOf h (tasks r)) ∧ 0 < possiblePoints (tasksOf h (tasks r)).
Proof.
  intros [He Hm] Hpos. destruct (earned_le_possible _ Hpos) as [H0 Hle].
  unfold isMilestone. rewrite He, Hm.
  rewrite andb_true_iff, !bool_decide_eq_true, <- (earned_eq_possible _ Hpos). lia.
Qed.

(** X10: for a record whose totals are the two sums, over tasks with
    non-negative points, the archive shows the trophy exactly when every open
    task is worth no points, so also for a record without tasks; the
    milestone counter counts it only if in addition there are points to
    earn. *)
Theorem milestone_all_done (h : Heap) (r : DailyRecord) :
  totalsAgree h r →
  Forall (λ t : TaskInstance, 0 ≤ points t) (tasksOf h (tasks r)) →
  (trophy r = true ↔ allDone (tasksOf h (tasks r))) ∧
  (isMilestone r = true ↔
     allDone (tasksOf h (tasks r)) ∧ 0 < possiblePoints (tasksOf h (tasks r))) ∧
  (tasks r = [] → trophy r = true ∧ isMilestone r = false).
Proof.
  intros Ht Hpos. assert (Hiff := isMilestone_iff h r Ht Hpos).
  destruct Ht as [He Hm]. destruct (earned_le_possible _ Hpos) as [H0 Hle].
  assert (Hdone := earned_eq_possible _ Hpos).
  split_and!.
  - unfold trophy. rewrite He, Hm, bool_decide_eq_true, <- Hdone. lia.
  - exact Hiff.
  - intros Hnil. unfold trophy, isMilestone. rewrite He, Hm, Hnil. done.
Qed.

Lemma milestone_all_done_witness :
  totalsAgree (heap freshWorld) (currentRecord freshWorld) ∧
  Forall (λ t : TaskInstance, 0 ≤ points t)
         (tasksOf (heap freshWorld) (tasks (currentRecord freshWorld))) ∧
  (isMilestone (currentRecord freshWorld) = true ↔
     allDone (tasksOf (heap freshWorld) (tasks (currentRecord freshWorld))) ∧
     0 < possiblePoints (tasksOf (heap freshWorld) (tasks (currentRecord freshWorld)))).
Proof.
  assert (Ht : totalsAgree (heap freshWorld) (currentRecord freshWorld))
    by (split; reflexivity).
  assert (Hp : Forall (λ t : TaskInstance, 0 ≤ points t)
                 (tasksOf (heap freshWorld) (tasks (currentRecord freshWorld)))).
  { vm_compute. repeat constructor; discriminate. }
  split; [exact Ht|]. split; [exact Hp|].
  apply (milestone_all_done (heap freshWorld) (currentRecord freshWorld) Ht Hp).
Defined.

Lemma filter_length_iff {A} (P Q : A → Prop) `{∀ x, Decision (P x)} `{∀ x, Decision (Q x)}
    (l : list A) :
  Forall (λ x, P x ↔ Q x) l → length (filter P l) = length (filter Q l).
Proof.
  induction 1 as [|x l Hx _ IH]; [done|].
  rewrite !filter_cons. destruct (decide (P x)).
  - rewrite decide_True by tauto. simpl. by rewrite IH.
  - rewrite decide_False by tauto. done.
Qed.

(** X11: when every stored record has the two sums as its totals, over tasks
    with non-negative points, the milestone counter is the number of stored
    records that have points to earn and no open task worth points. *)
Theorem milestoneDays_counts (h : Heap) (s : AppState) :
  (∀ d r, records s !! d = Some r →
          totalsAgree h r ∧
          Forall (λ t : TaskInstance, 0 ≤ points t) (tasksOf h (tasks r))) →
  milestoneDays s
  = length (filter (λ r, allDone (tasksOf h (tasks r))
                         ∧ 0 < possiblePoints (tasksOf h (tasks r)))
                   ((map_to_list (records s)).*2)).
Proof.
  intros Hall. unfold milestoneDays. apply filter_length_iff.
  apply Forall_forall. intros r Hr. apply elem_of_values in Hr as [d Hd].
  destruct (Hall d r Hd) as [Ht Hpos]. by apply isMilestone_iff.
Qed.

Lemma milestoneDays_counts_witness :
  (∀ d r, records (state twoDays) !! d = Some r →
          totalsAgree (heap twoDays) r ∧
          Forall (λ t : TaskInstance, 0 ≤ points t) (tasksOf (heap twoDays) (tasks r))) ∧
  milestoneDays (state twoDays) = 0%nat.
Proof.
  assert (Hall : ∀ d r, records (state twoDays) !! d = Some r →
            totalsAgree (heap twoDays) r ∧
            Forall (λ t : TaskInstance, 0 ≤ points t) (tasksOf (heap twoDays) (tasks r))).
  { intros d r Hd.
    assert (Hr : r ∈ (map_to_list (records (state twoDays))).*2)
      by (apply elem_of_values; eauto).
    vm_compute in Hr.
    repeat (apply elem_of_cons in Hr as [->|Hr];
            [split; [split; reflexivity | vm_compute; repeat constructor; discriminate]|]).
    by apply elem_of_nil in Hr. }
  split; [exact Hall|].
  rewrite (milestoneDays_counts (heap twoDays) (state twoDays) Hall). reflexivity.
Defined.

Lemma progressPerc_100 e m :
  Qeq_bool (progressPerc e m) 100 = true ↔ e = orZ m 1.
Proof.
  unfold progressPerc. rewrite Qeq_bool_iff.
  assert (orZ m 1 ≠ 0) as Hnz by (unfold orZ; destruct (Z.eqb_spec m 0); lia).
  assert (¬ inject_Z (orZ m 1) == 0)%Q as HnzQ.
  { change 0%Q with (inject_Z 0). by rewrite inject_Z_injective. }
  split.
  - intros Heq. apply inject_Z_injective.
    rewrite <- (Qmult_div_r (inject_Z e) (inject_Z (orZ m 1))) at 1 by done.
    revert Heq. generalize (inject_Z e / inject_Z (orZ m 1))%Q. intros q Hq.
    assert (q == 1)%Q as -> by lra. apply Qmult_1_r.
  - intros ->. unfold Qdiv. rewrite Qmult_inv_r by done. reflexivity.
Qed.

(** X12: the completion flag of the home view agrees with the criterion of the
    milestone counter on every record whose totals are the two sums, over
    tasks with non-negative points. *)
Theorem isCompleted_isMilestone (w : World) :
  totalsAgree (heap w) (currentRecord w) →
  Forall (λ t : TaskInstance, 0 ≤ points t) (tasksOf (heap w) (tasks (currentRecord w))) →
  isCompleted w = isMilestone (currentRecord w).
Proof.
  intros [He Hm] Hpos. destruct (earned_le_possible _ Hpos) as [H0 Hle].
  unfold isCompleted, isMilestone, progress.
  apply eq_true_iff_eq.
  rewrite !andb_true_iff, progressPerc_100, !bool_decide_eq_true.
  assert (0 < maxPointsPossible (currentRecord w)
          → (0 < length (tasks (currentRecord w)))%nat) as Hlen.
  { rewrite Hm. destruct (tasks (currentRecord w)); [done | simpl; lia]. }
  rewrite <- He, <- Hm in *. unfold orZ.
  destruct (Z.eqb_spec (maxPointsPossible (currentRecord w)) 0); lia.
Qed.

Lemma isCompleted_isMilestone_witness :
  totalsAgree (heap committedWorld) (currentRecord committedWorld) ∧
  Forall (λ t : TaskInstance, 0 ≤ points t)
         (tasksOf (heap committedWorld) (tasks (currentRecord committedWorld))) ∧
  isCompleted committedWorld = isMilestone (currentRecord committedWorld).
Proof.
  assert (Ht : totalsAgree (heap committedWorld) (currentRecord committedWorld))
    by (split; reflexivity).
  assert (Hp : Forall (λ t : TaskInstance, 0 ≤ points t)
                 (tasksOf (heap committedWorld) (tasks (currentRecord committedWorld)))).
  { vm_compute. repeat constructor; discriminate. }
  split; [exact Ht|]. split; [exact Hp|].
  apply (isCompleted_isMilestone committedWorld Ht Hp).
Defined.

(** ** The chart *)

Lemma String_compare_trans : ∀ s1 s2 s3,
  String.compare s1 s2 ≠ Gt → String.compare s2 s3 ≠ Gt → String.compare s1 s3 ≠ Gt.
Proof.
  induction s1 as [|a s1 IH]; intros [|b s2] [|c s3]; simpl; try done.
  unfold Ascii.compare.
  destruct (N.compare_spec (Ascii.N_of_ascii a) (Ascii.N_of_ascii b)) as [Hab|Hab|Hab];
    destruct (N.compare_spec (Ascii.N_of_ascii b) (Ascii.N_of_ascii c)) as [Hbc|Hbc|Hbc];
    destruct (N.compare_spec (Ascii.N_of_ascii a) (Ascii.N_of_ascii c)) as [Hac|Hac|Hac];
    try done; try lia.
  apply IH.
Qed.

Global Instance dateLe_trans : Transitive dateLe.
Proof.
  intros a b c. unfold dateLe, String.leb. intros Hab Hbc.
  assert (Hac := String_compare_trans (date a) (date b) (date c)).
  destruct (String.compare (date a) (date b)); [| |done];
    (destruct (String.compare (date b) (date c)); [| |done]);
    (destruct (String.compare (date a) (date c)); [done|done|]);
    by destruct Hac.
Qed.

Global Instance dateLe_total : Total dateLe.
Proof. intros a b. apply String.leb_total. Qed.

(** X13: the chart shows the records with the latest dates, at most 14 of
    them, in ascending order of their dates, each with its
    [totalPointsEarned]. *)
Theorem chartData_latest (s : AppState) :
  ∃ older latest,
    allRecords s = older ++ latest ∧
    chartData s
      = (λ r, ChartPoint.mk (chartLabel (date r)) (totalPointsEarned r)) <$> latest ∧
    length latest = (14 `min` size (records s))%nat ∧
    StronglySorted dateLe latest ∧
    (∀ r r', r ∈ older → r' ∈ latest → dateLe r r') ∧
    (∀ r, r ∈ older ++ latest ↔ ∃ d, records s !! d = Some r).
Proof.
  exists (take (length (allRecords s) - 14) (allRecords s)),
         (drop (length (allRecords s) - 14) (allRecords s)).
  assert (Hsorted : StronglySorted dateLe (allRecords s))
    by (apply StronglySorted_merge_sort; apply _).
  rewrite <- (take_drop (length (allRecords s) - 14) (allRecords s)) in Hsorted.
  apply StronglySorted_app in Hsorted as (Hle & _ & Hlatest).
  split_and!.
  - by rewrite take_drop.
  - done.
  - rewrite length_drop, allRecords_length. lia.
  - done.
  - intros r r' Hr Hr'. by apply Hle.
  - intros r. rewrite take_drop. apply elem_of_allRecords.
Qed.

Lemma String_split_none sep s : occurs sep s = false → String_split sep s = [s].
Proof.
  induction s as [|a s IH]; [done|]. simpl.
  destruct (Ascii.eqb a sep); [done|]. simpl. intros Hs. by rewrite IH.
Qed.

Lemma String_split_sep sep a b :
  occurs sep a = false →
  String_split sep (a +:+ String sep b) = a :: String_split sep b.
Proof.
  induction a as [|c a IH]; simpl.
  - intros _. by rewrite Ascii.eqb_refl.
  - destruct (Ascii.eqb c sep); [done|]. simpl. intros Ha. by rewrite IH.
Qed.

(** X14: the label of a chart point is the date without its first field, the
    remaining fields joined by a slash: month/day for a date of the form
    year-month-day, and the empty text for a date without a dash. *)
Theorem chartLabel_month_day (y m d : string) :
  occurs DASH y = false → occurs DASH m = false → occurs DASH d = false →
  chartLabel (y +:+ String DASH (m +:+ String DASH d)) = m +:+ "/" +:+ d ∧
  chartLabel y = EmptyString.
Proof.
  intros Hy Hm Hd. unfold chartLabel.
  rewrite String_split_sep, String_split_sep, !String_split_none by done.
  done.
Qed.

Lemma chartLabel_month_day_witness :
  occurs DASH "2024" = false ∧ occurs DASH "05" = false ∧ occurs DASH "01" = false ∧
  chartLabel "2024-05-01" = "05/01".
Proof.
  split; [reflexivity|]. split; [reflexivity|]. split; [reflexivity|].
  apply (chartLabel_month_day "2024" "05" "01"); reflexivity.
Defined.

(** ** The quote effect *)

Lemma quoteEffect_pending w :
  pending (quoteEffect w)
  = pending w ++
    (if decide (effectDeps w = Some (selectedDate w, UserProfile.name (profile (state w)),
                                     customQuote (currentRecord w)))
     then []
     else if falsy (customQuote (currentRecord w))
          then [mkPending (selectedDate w) (currentRecord w)] else []).
Proof.
  unfold quoteEffect. case_decide; simpl; [by rewrite app_nil_r|].
  destruct (falsy _); simpl; [done | by rewrite app_nil_r].
Qed.

Lemma setState_pending f w :
  rendered w →
  UserProfile.name (profile (f (state w))) = UserProfile.name (profile (state w)) →
  pending (setState f true w)
  = pending w ++
    (if decide (customQuote (currentRecord (setState f true w)) = customQuote (currentRecord w))
     then []
     else if falsy (customQuote (currentRecord (setState f true w)))
          then [mkPending (selectedDate w) (currentRecord (setState f true w))] else []).
Proof.
  intros Hr Hn. unfold setState at 1. rewrite quoteEffect_pending.
  unfold setState. rewrite quoteEffect_currentRecord.
  rewrite useMemo_selectedDate, useMemo_state. simpl. rewrite Hn.
  assert (pending (useMemo (mkWorld (f (state w)) (selectedDate w) (heap w)
                                    (currentRecord w) (effectDeps w) (pending w)))
          = pending w) as ->.
  { unfold useMemo. by destruct (computeCurrentRecord _ _ _). }
  assert (effectDeps (useMemo (mkWorld (f (state w)) (selectedDate w) (heap w)
                                       (currentRecord w) (effectDeps w) (pending w)))
          = effectDeps w) as ->.
  { unfold useMemo. by destruct (computeCurrentRecord _ _ _). }
  rewrite Hr. f_equal.
  repeat case_decide; try done; congruence.
Qed.

(** ** Editing the quote *)

(** X15: the quote editor stores the text as typed under the selected date,
    in a copy of the record on display: the tasks, the two totals and the
    report comment are the ones on display, nothing is recomputed, the
    objects and the other dates are untouched.  No fetch starts unless the
    text is empty: emptying the quote starts a new fetch. *)
Theorem editQuote_stores (text : string) (w : World) :
  rendered w →
  let w' := editQuote text w in
  currentRecord w' = withQuote (Some text) (currentRecord w) ∧
  records (state w') !! selectedDate w = Some (currentRecord w') ∧
  heap w' = heap w ∧
  (∀ d, d ≠ selectedDate w → records (state w') !! d = records (state w) !! d) ∧
  pending w'
  = pending w ++
    (if decide (Some text = customQuote (currentRecord w)) then []
     else if decide (text = "") then [mkPending (selectedDate w) (currentRecord w')]
          else []).
Proof.
  intros Hr w'. unfold w', editQuote.
  set (f := withRecords (λ prev,
               <[selectedDate w := withQuote (Some text) (currentRecord w)]> prev)).
  destruct (setState_stored f w (withQuote (Some text) (currentRecord w))) as [Hc Hh].
  { simpl. apply lookup_insert_eq. }
  rewrite setState_pending by done. rewrite Hc, Hh, setState_state. simpl.
  split_and!; try done.
  - apply lookup_insert_eq.
  - intros d Hd. by apply lookup_insert_ne.
  - f_equal. unfold bool_decide. repeat case_decide; try done; congruence.
Qed.

Lemma editQuote_stores_witness :
  rendered committedWorld ∧
  currentRecord (editQuote "" committedWorld)
    = withQuote (Some "") (currentRecord committedWorld) ∧
  length (pending (editQuote "" committedWorld)) = S (length (pending committedWorld)).
Proof.
  assert (Hr : rendered committedWorld) by reflexivity.
  split; [exact Hr|].
  destruct (editQuote_stores "" committedWorld Hr) as (Hc & _ & _ & _ & Hp).
  split; [exact Hc|]. rewrite Hp. reflexivity.
Defined.

(** ** Viewing a stored date *)

(** X16: selecting a calendar date that has a stored record shows exactly
    that record and creates no object; the state is not written.  A fetch
    starts for it only if the record has no quote.  Selecting the date
    already selected does nothing. *)
Theorem setSelectedDate_stored (d : string) (r : DailyRecord) (w : World) :
  rendered w → isoDate d = true → d ≠ selectedDate w →
  records (state w) !! d = Some r →
  let w' := setSelectedDate d w in
  state w' = state w ∧ selectedDate w' = d ∧ currentRecord w' = r ∧ heap w' = heap w ∧
  pending w' = pending w ++ (if falsy (customQuote r) then [mkPending d r] else []) ∧
  setSelectedDate (selectedDate w) w = w.
Proof.
  intros Hr _ Hd Hrec w'. unfold w', setSelectedDate.
  rewrite decide_False by done. rewrite (decide_True (P := selectedDate w = selectedDate w)) by done.
  set (w1 := mkWorld (state w) d (heap w) (currentRecord w) (effectDeps w) (pending w)).
  destruct (useMemo_stored w1 r Hrec) as [Hc Hh].
  rewrite quoteEffect_state, quoteEffect_selectedDate, quoteEffect_currentRecord,
    quoteEffect_heap, quoteEffect_pending.
  rewrite useMemo_state, useMemo_selectedDate, Hc, Hh. simpl.
  assert (pending (useMemo w1) = pending w) as ->.
  { unfold useMemo. by destruct (computeCurrentRecord _ _ _). }
  assert (effectDeps (useMemo w1) = effectDeps w) as ->.
  { unfold useMemo. by destruct (computeCurrentRecord _ _ _). }
  split_and!; try done.
  rewrite Hr. rewrite decide_False by congruence. done.
Qed.

Lemma setSelectedDate_stored_witness :
  rendered twoDays ∧ isoDate today = true ∧ today ≠ selectedDate twoDays ∧
  (∃ r, records (state twoDays) !! today = Some r ∧
        currentRecord (setSelectedDate today twoDays) = r ∧
        heap (setSelectedDate today twoDays) = heap twoDays).
Proof.
  assert (Hr : rendered twoDays) by reflexivity.
  assert (Hi : isoDate today = true) by reflexivity.
  assert (Hd : today ≠ selectedDate twoDays) by discriminate.
  split; [exact Hr|]. split; [exact Hi|]. split; [exact Hd|].
  destruct (records (state twoDays) !! today) as [r|] eqn:Hrec; [|by vm_compute in Hrec].
  exists r. split; [done|].
  destruct (setSelectedDate_stored today r twoDays Hr Hi Hd Hrec) as (_ & _ & Hc & Hh & _).
  by split.
Defined.

(** ** The answers of the inspiration provider *)

(** X17: the answer to a pending fetch replaces whatever is stored under the
    date the fetch was started for by the record captured at that time,
    with the answered quote; the records of the other dates are untouched,
    and the fetch is no longer pending.  An answer for no pending fetch
    changes nothing. *)
Theorem quoteArrives_overwrites (i : nat) (q : string) (p : Pending) (w : World) :
  pending w !! i = Some p →
  let w' := quoteArrives i q w in
  records (state w') !! fetchDate p = Some (withQuote (Some q) (fetchRecord p)) ∧
  (∀ d, d ≠ fetchDate p → records (state w') !! d = records (state w) !! d) ∧
  (fetchDate p = selectedDate w → currentRecord w' = withQuote (Some q) (fetchRecord p)) ∧
  (∃ more, pending w' = delete i (pending w) ++ more) ∧
  (∀ j, pending w !! j = None → quoteArrives j q w = w).
Proof.
  intros Hp w'. unfold w', quoteArrives. rewrite Hp.
  set (w1 := mkWorld (state w) (selectedDate w) (heap w) (currentRecord w)
                     (effectDeps w) (delete i (pending w))).
  set (f := withRecords (λ prev,
               <[fetchDate p := withQuote (Some q) (fetchRecord p)]> prev)).
  rewrite setState_state. simpl.
  split_and!.
  - apply lookup_insert_eq.
  - intros d Hd. by apply lookup_insert_ne.
  - intros Hsel.
    destruct (setState_stored f w1 (withQuote (Some q) (fetchRecord p))) as [Hc _]; [|done].
    simpl. rewrite <- Hsel. apply lookup_insert_eq.
  - unfold setState. rewrite quoteEffect_pending. eexists.
    f_equal. unfold useMemo. by destruct (computeCurrentRecord _ _ _).
  - intros j Hj. by rewrite Hj.
Qed.

Lemma quoteArrives_overwrites_witness :
  (∃ p, pending committedWorld !! 0%nat = Some p ∧
        fetchDate p = today ∧
        totalPointsEarned <$> records (state committedWorld) !! today = Some 10 ∧
        totalPointsEarned <$> records (state (quoteArrives 0 "q" committedWorld)) !! today
          = Some 0).
Proof.
  destruct (pending committedWorld !! 0%nat) as [p|] eqn:Hp; [|by vm_compute in Hp].
  exists p. split; [done|].
  destruct (quoteArrives_overwrites 0 "q" p committedWorld Hp) as (Hl & _).
  vm_compute in Hp. injection Hp as <-.
  split; [reflexivity|]. split; [reflexivity|].
  simpl fetchDate in Hl. unfold today. rewrite Hl. reflexivity.
Defined.

Lemma quoteEffect_prefix w : pending w `prefix_of` pending (quoteEffect w).
Proof. rewrite quoteEffect_pending. by eexists. Qed.

Lemma useMemo_pending w : pending (useMemo w) = pending w.
Proof. unfold useMemo. by destruct (computeCurrentRecord _ _ _). Qed.

Lemma setState_prefix f b w : pending w `prefix_of` pending (setState f b w).
Proof.
  unfold setState. etrans; [|apply quoteEffect_prefix].
  destruct b; [by rewrite useMemo_pending | done].
Qed.

Lemma step_prefix w e : userEvent e → pending w `prefix_of` pending (step w e).
Proof.
  intros He. destruct e; simpl; try done; try apply setState_prefix.
  - unfold setSelectedDate. case_decide; [done|].
    etrans; [|apply quoteEffect_prefix]. by rewrite useMemo_pending.
  - unfold toggleTask. destruct (list_find _ _) as [[i l]|]; [|done].
    apply (setState_prefix _ _ (withHeap _ w)).
  - unfold togglePrayer. destruct (prayers _); apply (setState_prefix _ _ (withHeap _ w)).
  - unfold updateTaskInstance. destruct (mapTasks _ _ _ _).
    apply (setState_prefix _ _ (withHeap _ w)).
  - apply (setState_prefix _ _ (withHeap _ w)).
  - destruct confirmed; [apply setState_prefix | done].
Qed.

Lemma run_prefix es : ∀ w, Forall userEvent es → pending w `prefix_of` pending (run w es).
Proof.
  induction es as [|e es IH]; intros w Hes; [done|].
  apply Forall_cons in Hes as [He Hes]. simpl.
  etrans; [by apply step_prefix | by apply IH].
Qed.

Lemma calendarEvent_userEvent e : calendarEvent e → userEvent e.
Proof. by destruct e. Qed.

(** X18: no user event cancels a fetch.  After any sequence of user events in
    which every date selected is a calendar date (with another text the home
    view cannot be rendered), the full reset included, a fetch that was
    pending is still pending, and its answer stores the record it captured
    under the date it captured. *)
Theorem fetch_never_cancelled (w : World) (es : list Event) (i : nat) (p : Pending)
    (q : string) :
  Forall calendarEvent es →
  pending w !! i = Some p →
  pending (run w es) !! i = Some p ∧
  records (state (quoteArrives i q (run w es))) !! fetchDate p
    = Some (withQuote (Some q) (fetchRecord p)).
Proof.
  intros Hes Hp.
  assert (Hu : Forall userEvent es).
  { eapply Forall_impl; [exact Hes|]. apply calendarEvent_userEvent. }
  assert (pending (run w es) !! i = Some p) as Hp'.
  { destruct (run_prefix es w Hu) as [more ->]. by apply lookup_app_l_Some. }
  split; [done|]. by apply quoteArrives_lookup.
Qed.

Lemma fetch_never_cancelled_witness :
  Forall calendarEvent [ToggleTask "1"; SetSelectedDate tomorrow; ClearAllRecords true] ∧
  (∃ p, pending freshWorld !! 0%nat = Some p ∧
        records (state (run freshWorld
                          [ToggleTask "1"; SetSelectedDate tomorrow; ClearAllRecords true]))
          = ∅ ∧
        records (state (quoteArrives 0 "q"
                          (run freshWorld
                             [ToggleTask "1"; SetSelectedDate tomorrow;
                              ClearAllRecords true])))
          !! fetchDate p = Some (withQuote (Some "q") (fetchRecord p))).
Proof.
  assert (Hes : Forall calendarEvent
                  [ToggleTask "1"; SetSelectedDate tomorrow; ClearAllRecords true]).
  { repeat constructor. }
  split; [exact Hes|].
  destruct (pending freshWorld !! 0%nat) as [p|] eqn:Hp; [|by vm_compute in Hp].
  exists p. split; [done|]. split; [reflexivity|].
  apply (fetch_never_cancelled freshWorld _ 0 p "q" Hes Hp).
Defined.

(** ** The settings *)

Lemma setState_keep f w :
  rendered w →
  UserProfile.name (profile (f (state w))) = UserProfile.name (profile (state w)) →
  setState f false w
  = mkWorld (f (state w)) (selectedDate w) (heap w) (currentRecord w)
            (effectDeps w) (pending w).
Proof.
  intros Hr Hn. unfold setState, quoteEffect. simpl. rewrite Hn.
  by rewrite decide_True by done.
Qed.

(** X19: switching the appearance and loading a profile picture write their
    own field of the state and nothing else: the records, the record on
    display, the objects and the pending fetches are as before, and no fetch
    starts.  Switching the appearance twice gives back the world. *)
Theorem settings_frame (dataUrl : string) (w : World) :
  rendered w →
  sameView w (toggleDarkMode w) ∧ sameView w (avatarLoaded dataUrl w) ∧
  records (state (toggleDarkMode w)) = records (state w) ∧
  records (state (avatarLoaded dataUrl w)) = records (state w) ∧
  darkMode (state (toggleDarkMode w)) = negb (darkMode (state w)) ∧
  UserProfile.avatar (profile (state (avatarLoaded dataUrl w))) = dataUrl ∧
  toggleDarkMode (toggleDarkMode w) = w.
Proof.
  intros Hr. unfold toggleDarkMode at 1 2 3, avatarLoaded.
  rewrite !setState_keep by done. split_and!; try done.
  unfold toggleDarkMode. rewrite (setState_keep _ w) by done.
  rewrite setState_keep by done. simpl. rewrite negb_involutive.
  by destruct w as [[] ? ? ? ? ?].
Qed.

Lemma settings_frame_witness :
  rendered twoDays ∧ toggleDarkMode (toggleDarkMode twoDays) = twoDays.
Proof.
  assert (Hr : rendered twoDays) by reflexivity.
  split; [exact Hr|]. apply (settings_frame "" twoDays Hr).
Defined.

(** X20: every change of the profile name starts another fetch for the
    selected date while the record on display has no quote, and none when
    it has one; the records are not written. *)
Theorem setProfileName_fetches (n : string) (w : World) :
  rendered w →
  n ≠ UserProfile.name (profile (state w)) →
  let w' := setProfileName n w in
  UserProfile.name (profile (state w')) = n ∧
  records (state w') = records (state w) ∧
  currentRecord w' = currentRecord w ∧ heap w' = heap w ∧
  pending w'
  = pending w ++ (if falsy (customQuote (currentRecord w))
                  then [mkPending (selectedDate w) (currentRecord w)] else []).
Proof.
  intros Hr Hn w'. unfold w', setProfileName, setState.
  rewrite quoteEffect_state, quoteEffect_currentRecord, quoteEffect_heap,
    quoteEffect_pending. simpl.
  split_and!; try done.
  rewrite Hr. rewrite decide_False by congruence. done.
Qed.

Lemma setProfileName_fetches_witness :
  rendered freshWorld ∧
  "Al" ≠ UserProfile.name (profile (state freshWorld)) ∧
  length (pending (setProfileName "Al" freshWorld)) = 2%nat ∧
  length (pending (setProfileName "Ali" (setProfileName "Al" freshWorld))) = 3%nat.
Proof.
  assert (Hr : rendered freshWorld) by reflexivity.
  assert (Hn : "Al" ≠ UserProfile.name (profile (state freshWorld))) by discriminate.
  split; [exact Hr|]. split; [exact Hn|].
  destruct (setProfileName_fetches "Al" freshWorld Hr Hn) as (_ & _ & _ & _ & Hp).
  split; [by rewrite Hp | reflexivity].
Defined.

(** ** Adding a goal and deleting it again *)

(** X21: deleting a goal right after defining it, by its id, gives back the
    task array of before and the derived fields [updateRecord] computes for
    it, provided no task of the record already had that id. *)
Theorem defineGoal_then_delete (random36 : string) (w : World) :
  wellFormed (heap w) (currentRecord w) →
  id (newGoal random36) ∉ taskIds (heap w) (currentRecord w) →
  let w2 := deleteTaskInstance (id (newGoal random36)) (defineGoal random36 w) in
  tasks (currentRecord w2) = tasks (currentRecord w) ∧
  tasksOf (heap w2) (tasks (currentRecord w2)) = tasksOf (heap w) (tasks (currentRecord w)) ∧
  derivedFields (currentRecord w2) = derivedFields (recompute (heap w) (currentRecord w)) ∧
  records (state w2) !! selectedDate w = Some (currentRecord w2).
Proof.
  intros Hwf Hnot w2. set (taskId := id (newGoal random36)) in *.
  set (h1 := mkHeap (taskObjs (heap w) ++ [newGoal random36]) (prayerObjs (heap w))).
  set (l := length (taskObjs (heap w))).
  assert (Hc1 : currentRecord (defineGoal random36 w)
                = recompute h1 (withTasks (tasks (currentRecord w) ++ [l]) (currentRecord w)))
    by exact (proj1 (updateRecord_rendered _ (withHeap h1 w))).
  assert (Hh1 : heap (defineGoal random36 w) = h1)
    by exact (proj2 (updateRecord_rendered _ (withHeap h1 w))).
  assert (Hsel : selectedDate (defineGoal random36 w) = selectedDate w)
    by exact (updateRecord_selectedDate _ (withHeap h1 w)).
  assert (Hfilter : filter (λ l', ¬ hasId h1 taskId l') (tasks (currentRecord w) ++ [l])
                    = tasks (currentRecord w)).
  { rewrite filter_app, filter_cons, filter_nil.
    rewrite decide_False.
    2:{ intros Hn. apply Hn. unfold hasId, h1. simpl.
        by rewrite list_lookup_middle. }
    rewrite app_nil_r. apply filter_Forall_id.
    apply Forall_forall. intros l' Hl' Hid. apply Hnot, taskIds_hasId.
    exists l'. split; [done|]. unfold hasId in *. simpl in Hid.
    destruct (proj1 (Forall_forall _ _) Hwf l' Hl') as [t Ht].
    unfold loc in *.
    rewrite (lookup_app_l_Some _ [newGoal random36] _ _ Ht) in Hid. by rewrite Ht. }
  set (rc := withTasks (filter (λ l', ¬ hasId (heap (defineGoal random36 w)) taskId l')
                               (tasks (currentRecord (defineGoal random36 w))))
                       (currentRecord (defineGoal random36 w))).
  assert (Hc2 : currentRecord w2 = recompute (heap (defineGoal random36 w)) rc)
    by exact (proj1 (updateRecord_rendered rc (defineGoal random36 w))).
  assert (Hh2 : heap w2 = heap (defineGoal random36 w))
    by exact (proj2 (updateRecord_rendered rc (defineGoal random36 w))).
  assert (Hl2 : records (state w2) !! selectedDate w = Some (currentRecord w2)).
  { rewrite <- Hsel, Hc2. exact (updateRecord_lookup rc (defineGoal random36 w)). }
  unfold rc in Hc2. clear rc.
  rewrite Hh1, Hc1 in Hc2. rewrite recompute_eq in Hc2 at 1. simpl in Hc2.
  rewrite Hfilter in Hc2.
  assert (Hts : tasksOf h1 (tasks (currentRecord w)) = tasksOf (heap w) (tasks (currentRecord w))).
  { apply tasksOf_agree. intros l' Hl'.
    destruct (proj1 (Forall_forall _ _) Hwf l' Hl') as [t Ht].
    unfold h1. simpl. unfold loc in *. rewrite Ht. by apply lookup_app_l_Some. }
  split_and!; [| | | exact Hl2];
    rewrite ?Hh2, ?Hh1, Hc2, ?recompute_eq; unfold derivedFields; simpl;
    by rewrite ?Hts.
Qed.

Lemma defineGoal_then_delete_witness :
  wellFormed (heap freshWorld) (currentRecord freshWorld) ∧
  (id (newGoal "0.k3j9x2m1pqz") ∉ taskIds (heap freshWorld) (currentRecord freshWorld)) ∧
  tasks (currentRecord (deleteTaskInstance (id (newGoal "0.k3j9x2m1pqz"))
                          (defineGoal "0.k3j9x2m1pqz" freshWorld)))
    = tasks (currentRecord freshWorld).
Proof.
  assert (Hwf : wellFormed (heap freshWorld) (currentRecord freshWorld)).
  { unfold wellFormed. vm_compute. repeat constructor; by eexists. }
  assert (Hnot : id (newGoal "0.k3j9x2m1pqz")
                 ∉ taskIds (heap freshWorld) (currentRecord freshWorld)).
  { vm_compute. intros Hin.
    repeat (apply elem_of_cons in Hin as [Hin|Hin]; [discriminate|]).
    by apply elem_of_nil in Hin. }
  split; [exact Hwf|]. split; [exact Hnot|].
  apply (defineGoal_then_delete "0.k3j9x2m1pqz" freshWorld Hwf Hnot).
Defined.

(** ** The pulse report *)

Lemma getReportComment_nonempty p : getReportComment p ≠ "".
Proof. unfold getReportComment. repeat case_match; discriminate. Qed.

Lemma orString_comment (c : option string) p :
  c = None ∨ c = Some (getReportComment p) →
  orString c (getReportComment p) = getReportComment p.
Proof.
  intros [->| ->]; [done|]. simpl.
  by rewrite bool_decide_eq_false_2 by apply getReportComment_nonempty.
Qed.

Lemma pulseReport_eq w :
  totalsAgree (heap w) (currentRecord w) →
  reportComment (currentRecord w) = None ∨ committed (heap w) (currentRecord w) →
  pulseReport w
  = getReportComment (progressPerc (earnedPoints (shownTasks w)) (possiblePoints (shownTasks w))).
Proof.
  intros [He Hm] Hc. unfold pulseReport, progress, shownTasks. rewrite He, Hm.
  apply orString_comment. destruct Hc as [Hc|Hc]; [by left|right].
  unfold committed, derivedFields in Hc. rewrite recompute_eq in Hc. simpl in Hc.
  congruence.
Qed.

(** X22: on a record on display whose two totals are the two sums over its
    tasks and whose report comment is absent or the computed one, toggling
    a task twice leaves the report that the home view shows as it was, also
    when no comment was stored before: the view falls back to the comment
    of the current progress.  (Both conditions hold along every session of
    user events, see X23 and X25; a late answer of the provider can break
    them.) *)
Theorem pulseReport_toggle_twice (taskId : string) (w : World) :
  taskId ∈ taskIds (heap w) (currentRecord w) →
  totalsAgree (heap w) (currentRecord w) →
  reportComment (currentRecord w) = None ∨ committed (heap w) (currentRecord w) →
  pulseReport (toggleTask taskId (toggleTask taskId w)) = pulseReport w.
Proof.
  intros Hin Ht Hc. rewrite (pulseReport_eq w) by done.
  destruct (toggleTask_twice _ _ Hin) as (Hh & Hcur & _).
  rewrite pulseReport_eq.
  - unfold shownTasks. rewrite Hh, Hcur, recompute_eq. done.
  - rewrite Hh, Hcur. eapply totalsAgree_agree; [|apply recompute_totalsAgree]. done.
  - right. rewrite Hh, Hcur. unfold committed. by rewrite recompute_recompute.
Qed.

Lemma pulseReport_toggle_twice_witness :
  "1" ∈ taskIds (heap freshWorld) (currentRecord freshWorld) ∧
  totalsAgree (heap freshWorld) (currentRecord freshWorld) ∧
  reportComment (currentRecord freshWorld) = None ∧
  reportComment (currentRecord (toggleTask "1" (toggleTask "1" freshWorld))) ≠ None ∧
  pulseReport (toggleTask "1" (toggleTask "1" freshWorld)) = pulseReport freshWorld.
Proof.
  assert (Hin : "1" ∈ taskIds (heap freshWorld) (currentRecord freshWorld)).
  { vm_compute. apply elem_of_cons. by left. }
  assert (Ht : totalsAgree (heap freshWorld) (currentRecord freshWorld))
    by (split; reflexivity).
  split; [exact Hin|]. split; [exact Ht|]. split; [reflexivity|]. split; [discriminate|].
  apply (pulseReport_toggle_twice "1" freshWorld Hin Ht). by left.
Defined.

(** *** The report on display along a session *)

Lemma committed_agree h h' r :
  (∀ l, l ∈ tasks r → taskObjs h' !! l = taskObjs h !! l) →
  committed h r → committed h' r.
Proof.
  intros Hag Hc. unfold committed in *. rewrite Hc, !recompute_eq. simpl.
  by rewrite (tasksOf_agree h h').
Qed.

Lemma Reported_insert h h' (m : gmap string DailyRecord) sel rc :
  Reported h m →
  (∀ d r l, d ≠ sel → m !! d = Some r → l ∈ tasks r →
            taskObjs h' !! l = taskObjs h !! l) →
  reportComment rc = None ∨ committed h' rc →
  Reported h' (<[sel := rc]> m).
Proof.
  intros Hm Hag Hrc d r. rewrite lookup_insert. case_decide as Hd.
  - by intros [= <-].
  - intros Hr. destruct (Hm d r Hr) as [?|Hc]; [by left|right].
    apply (committed_agree h); [|done]. intros l Hl. by apply (Hag d r l).
Qed.

Lemma useMemo_Reported w :
  Sound (heap w) (records (state w)) →
  Reported (heap w) (records (state w)) →
  Reported (heap (useMemo w)) (shown (useMemo w)).
Proof.
  intros Hs Hrep. unfold shown. rewrite useMemo_state, useMemo_selectedDate.
  destruct (records (state w) !! selectedDate w) as [r|] eqn:Hr.
  - destruct (useMemo_stored w r Hr) as [-> ->]. by rewrite insert_id.
  - assert (Hf := useMemo_fresh w Hr).
    assert (Hh : ∃ new ps, heap (useMemo w) = mkHeap (taskObjs (heap w) ++ new) ps).
    { unfold useMemo, computeCurrentRecord. rewrite Hr. simpl. by eexists _, _. }
    destruct Hh as (new & ps & Hh).
    apply (Reported_insert (heap w)); [done| |].
    + intros d r l _ Hd Hl.
      assert (Hlt := wellFormed_valid _ _ _ (sound_wf _ _ Hs d r Hd) Hl).
      rewrite Hh. simpl. by rewrite lookup_app_l.
    + left. apply Hf.
Qed.

Lemma setState_Reported f w :
  Sound (heap w) (records (f (state w))) →
  Reported (heap w) (records (f (state w))) →
  Reported (heap (setState f true w)) (shown (setState f true w)).
Proof.
  intros Hs Hrep. unfold setState, shown.
  rewrite quoteEffect_heap, quoteEffect_state, quoteEffect_selectedDate,
    quoteEffect_currentRecord.
  by apply (useMemo_Reported (mkWorld _ _ _ _ _ _)).
Qed.

Section Reporting.
Context (w : World) (Hi : Inv w) (Hrep : Reported (heap w) (shown w)).

Lemma Reported_records : Reported (heap w) (records (state w)).
Proof. intros d r Hr. apply (Hrep d). by apply records_shown. Qed.

Lemma updateRecord_Reported rc h' :
  (∀ l, (l < length (taskObjs (heap w)))%nat → l ∉ tasks (currentRecord w) →
        taskObjs h' !! l = taskObjs (heap w) !! l) →
  Reported (heap (updateRecord rc (withHeap h' w)))
           (shown (updateRecord rc (withHeap h' w))).
Proof.
  intros Hag.
  destruct (updateRecord_rendered rc (withHeap h' w)) as [Hc Hh].
  unfold shown. rewrite Hc, Hh, updateRecord_selectedDate.
  unfold updateRecord. rewrite setState_state. simpl.
  rewrite insert_insert_eq.
  assert (Hins : <[selectedDate w := recompute h' rc]> (records (state w))
                 = <[selectedDate w := recompute h' rc]> (shown w)).
  { unfold shown. by rewrite insert_insert_eq. }
  rewrite Hins.
  apply (Reported_insert (heap w)); [done| |].
  - intros d r l Hd Hr Hl.
    assert (Hlt := wellFormed_valid _ _ _ (sound_wf _ _ (proj2 Hi) d r Hr) Hl).
    apply Hag; [done|]. by apply (Inv_current_sep w Hi d r l).
  - right. unfold committed. by rewrite recompute_recompute.
Qed.

Lemma step_Reported e :
  userEvent e → Reported (heap (step w e)) (shown (step w e)).
Proof.
  intros He. destruct e; simpl; try done.
  - unfold setSelectedDate. case_decide; [done|].
    unfold shown.
    rewrite quoteEffect_heap, quoteEffect_state, quoteEffect_selectedDate,
      quoteEffect_currentRecord.
    apply (useMemo_Reported (mkWorld _ _ _ _ _ _)); simpl;
      [by apply Inv_records | apply Reported_records].
  - unfold toggleTask.
    destruct (list_find _ _) as [[i l]|] eqn:Hfind; [|done].
    apply list_find_Some in Hfind as (Hl & _ & _).
    apply list_elem_of_lookup_2 in Hl.
    apply updateRecord_Reported.
    intros l' _ Hl'. simpl. apply list_lookup_alter_ne. by intros ->.
  - unfold togglePrayer.
    destruct (prayers (currentRecord w)); by apply updateRecord_Reported.
  - unfold updateTaskInstance.
    destruct (mapTasks _ _ _ _) as [ls objs] eqn:Hmap.
    destruct (mapTasks_spec _ _ _ _ _ _ Hmap (Inv_current_wf w Hi)) as ([new ->] & _ & _).
    apply updateRecord_Reported. intros l Hlt _. simpl. by rewrite lookup_app_l.
  - unfold deleteTaskInstance.
    assert (Hw : withHeap (heap w) w = w) by by destruct w.
    rewrite <- Hw at 3 6. by apply updateRecord_Reported.
  - unfold defineGoal. apply updateRecord_Reported.
    intros l Hlt _. simpl. by rewrite lookup_app_l.
  - unfold editQuote.
    set (f := withRecords (λ prev,
                 <[selectedDate w := withQuote (Some text) (currentRecord w)]> prev)).
    destruct (setState_stored f w (withQuote (Some text) (currentRecord w))) as [Hc Hh].
    { simpl. apply lookup_insert_eq. }
    unfold shown. rewrite Hc, Hh, setState_state, setState_selectedDate. simpl.
    rewrite insert_insert_eq.
    assert (Hins : <[selectedDate w := withQuote (Some text) (currentRecord w)]>
                     (records (state w))
                   = <[selectedDate w := withQuote (Some text) (currentRecord w)]> (shown w)).
    { unfold shown. by rewrite insert_insert_eq. }
    rewrite Hins. apply (Reported_insert (heap w)); [done|done|].
    exact (Hrep _ _ (shown_selected w)).
  - destruct confirmed; [|done].
    apply setState_Reported; simpl; [apply Sound_empty|].
    intros d r. by rewrite lookup_empty.
  - unfold toggleDarkMode, setState, shown.
    by rewrite quoteEffect_heap, quoteEffect_state, quoteEffect_selectedDate,
      quoteEffect_currentRecord.
  - unfold setProfileName, setState, shown.
    by rewrite quoteEffect_heap, quoteEffect_state, quoteEffect_selectedDate,
      quoteEffect_currentRecord.
Qed.
End Reporting.

Lemma run_Reported es : ∀ w,
  Forall userEvent es → Inv w → Reported (heap w) (shown w) →
  Inv (run w es) ∧ Reported (heap (run w es)) (shown (run w es)).
Proof.
  induction es as [|e es IH]; intros w Hes Hi Hrep; [done|].
  apply Forall_cons in Hes as [He Hes]. simpl.
  apply IH; [done | by apply step_Inv | by apply step_Reported].
Qed.

(** X23: along a session of user events, started from a state whose stored
    records are sound and carry no comment or the computed one, the pulse
    report on display is always the comment of the tasks on display: the
    tier of the points of the completed tasks against the points of all
    tasks. *)
Theorem pulseReport_current (s : AppState) (h : Heap) (d0 : string) (es : list Event) :
  Sound h (records s) →
  Reported h (records s) →
  Forall userEvent es →
  let w := run (mount s h d0) es in
  pulseReport w
  = getReportComment (progressPerc (earnedPoints (shownTasks w)) (possiblePoints (shownTasks w))).
Proof.
  intros Hs Hrep Hes w.
  destruct (run_Reported es (mount s h d0) Hes) as [Hi Hr].
  - by apply mount_Inv.
  - unfold mount, shown.
    rewrite quoteEffect_heap, quoteEffect_state, quoteEffect_selectedDate,
      quoteEffect_currentRecord.
    by apply (useMemo_Reported (mkWorld _ _ _ _ _ _)).
  - apply pulseReport_eq.
    + exact (Inv_current_totals _ Hi).
    + exact (Hr _ _ (shown_selected _)).
Qed.

Lemma pulseReport_current_witness :
  Sound emptyHeap (records (initialState false)) ∧
  Reported emptyHeap (records (initialState false)) ∧
  Forall userEvent [ToggleTask "1"; SetSelectedDate tomorrow; SetSelectedDate today] ∧
  pulseReport (run freshWorld [ToggleTask "1"; SetSelectedDate tomorrow; SetSelectedDate today])
  = SEED_SOWER.
Proof.
  assert (Hs : Sound emptyHeap (records (initialState false))) by apply Sound_empty.
  assert (Hrep : Reported emptyHeap (records (initialState false)))
    by (intros d r Hr; cbn [initialState records] in Hr; by rewrite lookup_empty in Hr).
  assert (Hes : Forall userEvent
                  [ToggleTask "1"; SetSelectedDate tomorrow; SetSelectedDate today])
    by (repeat constructor).
  split; [exact Hs|]. split; [exact Hrep|]. split; [exact Hes|].
  unfold freshWorld.
  rewrite (pulseReport_current (initialState false) emptyHeap today _ Hs Hrep Hes).
  reflexivity.
Defined.

(** ** The harvest card *)

(** X24: along a session of user events started from a sound state, the total
    energy harvest is the sum, over the stored records, of the points of
    their completed tasks. *)
Theorem totalEnergyHarvest_completed (s : AppState) (h : Heap) (d0 : string)
    (es : list Event) :
  Sound h (records s) →
  Forall userEvent es →
  let w := run (mount s h d0) es in
  totalEnergyHarvest (state w)
  = sumZ ((λ r, earnedPoints (tasksOf (heap w) (tasks r)))
            <$> (map_to_list (records (state w))).*2).
Proof.
  intros Hs Hes w.
  assert (Hi : Inv w) by (apply run_Inv; [done | by apply mount_Inv]).
  assert (Hrec := Inv_records w Hi).
  unfold totalEnergyHarvest. rewrite foldl_add, Z.add_0_l. f_equal.
  apply Forall_fmap_ext, Forall_forall. intros r Hr.
  apply elem_of_values in Hr as [d Hd].
  exact (proj1 (sound_totals _ _ Hrec d r Hd)).
Qed.

Lemma totalEnergyHarvest_completed_witness :
  Sound emptyHeap (records (initialState false)) ∧
  Forall userEvent [ToggleTask "6"; SetSelectedDate tomorrow; ToggleTask "1"] ∧
  totalEnergyHarvest (state twoDays) = 15.
Proof.
  assert (Hs : Sound emptyHeap (records (initialState false))) by apply Sound_empty.
  assert (Hes : Forall userEvent [ToggleTask "6"; SetSelectedDate tomorrow; ToggleTask "1"])
    by (repeat constructor).
  split; [exact Hs|]. split; [exact Hes|].
  unfold twoDays, freshWorld.
  rewrite (totalEnergyHarvest_completed (initialState false) emptyHeap today _ Hs Hes).
  reflexivity.
Defined.

(** ** The records along a session *)

(** X25: along a session of user events started from a sound state, a stored
    record of the selected date is the record on display, every stored
    record refers to existing task objects and has the two sums as its
    totals, and the records of two dates share no task object, so that a
    toggle on one date cannot reach the tasks of another. *)
Theorem session_sound (s : AppState) (h : Heap) (d0 : string) (es : list Event) :
  Sound h (records s) →
  Forall userEvent es →
  let w := run (mount s h d0) es in
  (∀ r, records (state w) !! selectedDate w = Some r → currentRecord w = r) ∧
  (∀ d r, records (state w) !! d = Some r →
          wellFormed (heap w) r ∧ totalsAgree (heap w) r) ∧
  (∀ d d' r r' l, d ≠ d' →
     records (state w) !! d = Some r → records (state w) !! d' = Some r' →
     l ∈ tasks r → l ∉ tasks r').
Proof.
  intros Hs Hes w.
  assert (Hi : Inv w) by (apply run_Inv; [done | by apply mount_Inv]).
  destruct (Inv_records w Hi) as [Hwf Ht Hsep].
  split_and!.
  - apply Hi.
  - intros d r Hr. split; [by apply (Hwf d) | by apply (Ht d)].
  - exact Hsep.
Qed.

Lemma session_sound_witness :
  Sound emptyHeap (records (initialState false)) ∧
  Forall userEvent [ToggleTask "6"; SetSelectedDate tomorrow; ToggleTask "1"] ∧
  ∀ d r, records (state twoDays) !! d = Some r →
         wellFormed (heap twoDays) r ∧ totalsAgree (heap twoDays) r.
Proof.
  assert (Hs : Sound emptyHeap (records (initialState false))) by apply Sound_empty.
  assert (Hes : Forall userEvent [ToggleTask "6"; SetSelectedDate tomorrow; ToggleTask "1"])
    by (repeat constructor).
  split; [exact Hs|]. split; [exact Hes|].
  apply (session_sound (initialState false) emptyHeap today _ Hs Hes).
Defined.

(** ** Binary64 arithmetic *)

(** X28 is [binary64_agrees]; here it is at 15 of 50 points, the lower end of
    the momentum tier. *)
Lemma binary64_agrees_witness :
  0 ≤ 15 ≤ 50 ∧ 50 ≤ 300 ∧
  getReportComment64 (progressPerc64 15 50) = getReportComment (progressPerc 15 50).
Proof.
  assert (H1 : 0 ≤ 15 ≤ 50) by lia. assert (H2 : 50 ≤ 300) by lia.
  split; [exact H1|]. split; [exact H2|]. apply (binary64_agrees 15 50 H1 H2).
Defined.

(** ** The id of a new goal *)

Lemma length_substring (s : string) : ∀ n m,
  String.length (String.substring n m s) = (m `min` (String.length s - n))%nat.
Proof.
  induction s as [|c s IH]; intros [|n] [|m]; simpl; try done;
    rewrite IH; f_equal; lia.
Qed.

(** X26: the id of a new goal has at most nine characters: as many as the
    draw has after its first two, so exactly nine for a draw printed with at
    least eleven characters and none for the draw 0. *)
Theorem newGoal_id_length (random36 : string) :
  String.length (id (newGoal random36)) = (9 `min` (String.length random36 - 2))%nat ∧
  (String.length (id (newGoal random36)) ≤ 9)%nat ∧
  id (newGoal "0") = "".
Proof.
  unfold newGoal. simpl. rewrite length_substring. split_and!; [done | lia | done].
Qed.

(** ** The first render *)

(** X27: the first render leaves the loaded state as it is and shows the
    stored record of today, or the record synthesised from the templates; it
    starts exactly one fetch when that record has no quote, and none when it
    has one.  So on a day without stored record, opening the application is
    enough for the provider's answer to store one. *)
Theorem mount_first_render (s : AppState) (h : Heap) (d0 : string) :
  let w := mount s h d0 in
  state w = s ∧ selectedDate w = d0 ∧ rendered w ∧
  pending w = (if falsy (customQuote (currentRecord w))
               then [mkPending d0 (currentRecord w)] else []) ∧
  (∀ r, records s !! d0 = Some r → currentRecord w = r ∧ heap w = h) ∧
  (records s !! d0 = None →
     isTemplateRecord (heap w) s d0 (currentRecord w) ∧
     ∀ q, records (state (quoteArrives 0 q w)) !! d0
          = Some (withQuote (Some q) (currentRecord w))).
Proof.
  intros w. unfold w, mount.
  set (w0 := mkWorld s d0 h (mkRecord d0 [] 0 0 None None None) None []).
  assert (Hp : pending (quoteEffect (useMemo w0))
               = (if falsy (customQuote (currentRecord (quoteEffect (useMemo w0))))
                  then [mkPending d0 (currentRecord (quoteEffect (useMemo w0)))] else [])).
  { rewrite quoteEffect_pending, quoteEffect_currentRecord, useMemo_pending.
    assert (effectDeps (useMemo w0) = None) as ->.
    { unfold useMemo. by destruct (computeCurrentRecord _ _ _). }
    rewrite useMemo_selectedDate. by rewrite decide_False by done. }
  split_and!.
  - by rewrite quoteEffect_state, useMemo_state.
  - by rewrite quoteEffect_selectedDate, useMemo_selectedDate.
  - apply quoteEffect_rendered.
  - exact Hp.
  - intros r Hr. rewrite quoteEffect_currentRecord, quoteEffect_heap.
    exact (useMemo_stored w0 r Hr).
  - intros Hr.
    assert (Hf := mount_fresh s h d0 Hr). unfold mount in Hf. fold w0 in Hf.
    split; [exact Hf|]. intros q.
    assert (Hq : customQuote (currentRecord (quoteEffect (useMemo w0))) = None)
      by apply Hf.
    rewrite Hq in Hp. simpl in Hp.
    exact (quoteArrives_lookup 0 q _ _ (f_equal (lookup 0%nat) Hp)).
Qed.

Lemma mount_first_render_witness :
  records (initialState false) !! today = None ∧
  records (state (quoteArrives 0 "q" freshWorld)) !! today
    = Some (withQuote (Some "q") (currentRecord freshWorld)).
Proof.
  split; [reflexivity|].
  apply (mount_first_render (initialState false) emptyHeap today). reflexivity.
Defined.
